(** * AI News Backend: feed assembly, translation cache and moderation gate

    A shallow embedding of [main.py] (with the document shapes of
    [schemas.py]) and the properties of its handlers.

    Conventions of the embedding:
    - Python [str] is [string]; [Optional[str]] is [option string]; truthiness
      ([x or y], [if x:]) is written out with [truthy].
    - The Mongo collections behind the handle [db] are lists of records in
      insertion order, threaded through the handlers as explicit state.
    - A handler returns an [outcome]: a value, an [HTTPException], or an
      exception nothing catches.
    - The scorer's float arithmetic is carried out in exact rationals [Q].
    - A datetime is an instant, an integer counting microseconds; whether
      the driver hands stored datetimes back with a timezone is its
      configuration and is not modelled. *)

From Stdlib Require Import Ascii QArith Qminmax Lqa.
From stdpp Require Import gmap strings list sorting.

Local Open Scope Z_scope.

(** ** Strings *)

Module Str.

(** [str.lower()] on the ASCII range; other bytes are kept as they are. *)
Definition lower_ascii (c : ascii) : ascii :=
  let n := nat_of_ascii c in
  if ((65 <=? n)%nat && (n <=? 90)%nat)%bool then ascii_of_nat (n + 32) else c.

Fixpoint lower (s : string) : string :=
  match s with
  | EmptyString => EmptyString
  | String c s' => String (lower_ascii c) (lower s')
  end.

(** [t.startswith(w)] *)
Fixpoint starts_with (w t : string) : bool :=
  match w, t with
  | EmptyString, _ => true
  | String a w', String b t' => if decide (a = b) then starts_with w' t' else false
  | String _ _, EmptyString => false
  end.

(** [w in t] for two strings: [w] occurs at some offset of [t]. *)
Fixpoint contains (w t : string) : bool :=
  starts_with w t ||
  match t with
  | EmptyString => false
  | String _ t' => contains w t'
  end.

(** [sep.join(l)] *)
Fixpoint join (sep : string) (l : list string) : string :=
  match l with
  | [] => ""
  | [x] => x
  | x :: l' => x +:+ sep +:+ join sep l'
  end.

(** [bool(s)] for a string: the empty string is falsy. *)
Definition nonempty (s : string) : bool :=
  match s with EmptyString => false | String _ _ => true end.

End Str.

Definition newline : string := String (ascii_of_nat 10) "".

(** ** Python values *)

(** [bool(x)] for an [Optional[str]]: [None] and the empty string are falsy. *)
Definition truthy (x : option string) : bool :=
  match x with
  | Some s => Str.nonempty s
  | None => false
  end.

(** [x or y] *)
Definition py_or (x y : option string) : option string :=
  if truthy x then x else y.

(** [l[:n]] *)
Definition slice_to {A} (l : list A) (n : Z) : list A :=
  if 0 <=? n then take (Z.to_nat n) l
  else take (Z.to_nat (Z.of_nat (length l) + n)) l.

(** Datetimes count microseconds; [total_seconds] of a difference. *)
Definition datetime : Type := Z.

Definition total_seconds (delta : Z) : Q := delta # 1000000.

(** Exceptions other than [HTTPException] that the handlers can raise. *)
Inductive py_exception : Type :=
| AttributeError
| TypeError.

(** What a request handler ends with. [RequestValidationError] is the
    framework turning down a parameter outside its declared [Query] bounds;
    [Raise] is an exception that no [except] clause catches. *)
Inductive outcome (A : Type) : Type :=
| Return (x : A)
| HTTPException (status_code : Z) (detail : string)
| RequestValidationError
| Raise (e : py_exception).
Arguments Return {A} x.
Arguments HTTPException {A} status_code detail.
Arguments RequestValidationError {A}.
Arguments Raise {A} e.

Definition bind {A B} (m : outcome A) (k : A → outcome B) : outcome B :=
  match m with
  | Return x => k x
  | HTTPException c d => HTTPException c d
  | RequestValidationError => RequestValidationError
  | Raise e => Raise e
  end.

(** ** Documents ([schemas.py]) *)

(** A document's [_id]: the driver's [ObjectId] (shown by its 24 hex digits)
    or a plain [str]. The two never compare equal in Python. *)
Inductive doc_id : Type :=
| ObjectId (hex : string)
| StrId (s : string).

Global Instance doc_id_eq_dec : EqDecision doc_id.
Proof. solve_decision. Defined.

Global Instance doc_id_countable : Countable doc_id.
Proof.
  refine (inj_countable'
    (λ i, match i with ObjectId h => inl h | StrId s => inr s end)
    (λ x, match x with inl h => ObjectId h | inr s => StrId s end) _).
  by intros [].
Defined.

(** [str(_id)] *)
Definition id_str (i : doc_id) : string :=
  match i with ObjectId h => h | StrId s => s end.

Module User.
Record t : Type := mk {
  _id : string;
  auth_provider : string;
  is_verified : bool;
  language : option string;
  region : option string;
  categories : list string
}.
End User.

(** One entry of an article's [translated] mapping: [{title, content}]. *)
Module Translation.
Record t : Type := mk { title : string; content : string }.
End Translation.

Module Article.
Record t : Type := mk {
  _id : doc_id;
  title : string;
  content : string;
  author_id : string;
  language : string;
  region : option string;
  categories : list string;
  source : option string;
  media_urls : list string;
  is_published : bool;
  moderation_status : string;
  moderation_notes : option string;
  translated : gmap string Translation.t;
  created_at : option datetime;
  updated_at : option datetime
}.

(** [$set] of the key [translated.<lang>] on one document. *)
Definition set_translated (lang : string) (tr : Translation.t) (a : t) : t :=
  mk (_id a) (title a) (content a) (author_id a) (language a) (region a)
     (categories a) (source a) (media_urls a) (is_published a)
     (moderation_status a) (moderation_notes a)
     (<[lang := tr]> (translated a)) (created_at a) (updated_at a).
End Article.

Module Interaction.
Record t : Type := mk {
  user_id : string;
  article_id : string;
  action : string;
  reading_time_sec : Z;
  engagement : Q;
  created_at : option datetime
}.
End Interaction.

Module Preference.
Record t : Type := mk {
  user_id : string;
  language : option string;
  region : option string;
  categories : list string
}.
End Preference.

(** Request body of [POST /articles]. *)
Module ArticleCreateRequest.
Record t : Type := mk {
  title : string;
  content : string;
  language : string;
  region : option string;
  categories : list string;
  media_urls : list string;
  source : option string
}.
End ArticleCreateRequest.

(** The dict a moderation decision is returned as. *)
Module Moderation.
Record t : Type := mk { status : string; notes : string }.
End Moderation.

(** Response of [POST /articles]. *)
Module CreateResponse.
Record t : Type := mk {
  id : string;
  moderation_status : string;
  moderation_notes : string
}.
End CreateResponse.

(** One entry of the feed response. *)
Module FeedItem.
Record t : Type := mk {
  id : string;
  title : string;
  content : string;
  language : string;
  region : option string;
  categories : list string;
  moderation_status : string;
  created_at : option datetime
}.
End FeedItem.

(** ** The store

    [database.py], which creates the handle [db], is not among the
    sources. The handlers use it as a Mongo database ([db.user],
    [db.article], [db.interaction], [db.preference] with [find],
    [find_one], [insert_one], [update_one]); the definitions of this part
    follow the store contracts of the spec (section 6). *)

(** Modelled from the spec: the handle [db] of the missing [database.py],
    as the collections the handlers read and write, each in insertion
    order. *)
Module Database.
Record t : Type := mk {
  user : list User.t;
  article : list Article.t;
  interaction : list Interaction.t;
  preference : list Preference.t
}.
End Database.

(** The query dict of [db.article.find]: an absent key constrains nothing. *)
Module ArticleFilter.
Record t : Type := mk {
  is_published : option bool;
  language : option string;
  region : option string
}.
End ArticleFilter.

Definition field_matches {A} `{EqDecision A} (q : option A) (v : A) : bool :=
  match q with
  | Some x => bool_decide (v = x)
  | None => true
  end.

Definition region_matches (q : option string) (v : option string) : bool :=
  match q with
  | Some x => bool_decide (v = Some x)
  | None => true
  end.

Definition article_matches (q : ArticleFilter.t) (a : Article.t) : bool :=
  field_matches (ArticleFilter.is_published q) (Article.is_published a)
  && field_matches (ArticleFilter.language q) (Article.language a)
  && region_matches (ArticleFilter.region q) (Article.region a).

(** Modelled from the spec: the Article Store's [find(filter)], which
    returns the articles that match every given field exactly; in the
    source [list(db.article.find(q))]. *)
Definition find_articles (db : Database.t) (q : ArticleFilter.t) : list Article.t :=
  List.filter (article_matches q) (Database.article db).

(** Modelled from the spec: the Article Store's [get(id)]; in the source
    [db.article.find_one({"_id": i})]. *)
Definition find_one_article (db : Database.t) (i : doc_id) : option Article.t :=
  List.find (λ a, bool_decide (Article._id a = i)) (Database.article db).

(** Modelled from the spec: the user lookup by id; in the source
    [db.user.find_one({"_id": user_id})]. *)
Definition find_one_user (db : Database.t) (user_id : string) : option User.t :=
  List.find (λ u, bool_decide (User._id u = user_id)) (Database.user db).

(** Modelled from the spec: the Preference Store's [get(user_id)]; in the
    source [db.preference.find_one({"user_id": user_id})]. *)
Definition find_one_preference (db : Database.t) (user_id : string) : option Preference.t :=
  List.find (λ p, bool_decide (Preference.user_id p = user_id)) (Database.preference db).

(** Modelled from the spec: the Interaction Store's [find(user_id)]; in
    the source [list(db.interaction.find({"user_id": user_id}))]. *)
Definition find_interactions (db : Database.t) (user_id : string) : list Interaction.t :=
  List.filter (λ it, bool_decide (Interaction.user_id it = user_id)) (Database.interaction db).

(** [update_one] changes the first document that matches, if any. *)
Fixpoint update_first {A} (p : A → bool) (f : A → A) (l : list A) : list A :=
  match l with
  | [] => []
  | x :: l' => if p x then f x :: l' else x :: update_first p f l'
  end.

(** Modelled from the spec: the Article Store's
    [upsert_translation(id, lang, {title, content})], which replaces the
    entry of one language on one article; in the source
    [db.article.update_one({"_id": i}, {"$set": {"translated.<lang>": tr}})]. *)
Definition update_translation (db : Database.t) (i : doc_id) (lang : string)
    (tr : Translation.t) : Database.t :=
  Database.mk (Database.user db)
    (update_first (λ a, bool_decide (Article._id a = i))
       (Article.set_translated lang tr) (Database.article db))
    (Database.interaction db) (Database.preference db).

(** Modelled from the spec: article creation in the Article Store; in the
    source [db.article.insert_one(doc)], which appends the document. *)
Definition insert_article (db : Database.t) (doc : Article.t) : Database.t :=
  Database.mk (Database.user db) (Database.article db ++ [doc])
    (Database.interaction db) (Database.preference db).

(** ** Utility helpers *)

Definition BANNED_KEYWORDS : gset string := {[ "fake"; "terror"; "hate" ]}.

(** The text that is scanned: [f"{title}\n{content}".lower()]. *)
Definition moderation_text (title content : string) : string :=
  Str.lower (title +:+ newline +:+ content).

(** [[w for w in BANNED_KEYWORDS if w in text]]; the set is visited in the
    order [elements] lists it (Python leaves the order open as well). *)
Definition matched_keywords (text : string) : list string :=
  List.filter (λ w, Str.contains w text) (elements BANNED_KEYWORDS).

Definition simple_moderation (title content : string) : Moderation.t :=
  let text := moderation_text title content in
  let matched := matched_keywords text in
  match matched with
  | _ :: _ =>
      Moderation.mk "rejected" ("Contains flagged terms: " +:+ Str.join ", " matched)
  | [] => Moderation.mk "approved" "Auto-approved"
  end.

Definition simple_translate (text target_lang : string) : string :=
  if decide (target_lang = "en") then text
  else ("[" +:+ target_lang +:+ " translation] ") +:+ text.

(** ** Articles: create *)

(** [create_article]. [clock n] is what the [n]-th call of [datetime.now]
    gives, [inserted_id] the hex digits of the id the driver assigns. *)
Definition create_article (db : Database.t) (clock : nat → datetime) (inserted_id : string)
    (user_id : string) (payload : ArticleCreateRequest.t)
  : outcome CreateResponse.t * Database.t :=
  match find_one_user db user_id with
  | None => (HTTPException 404 "User not found", db)
  | Some user =>
      let moderation :=
        if negb (User.is_verified user)
        then Moderation.mk "pending" "Awaiting manual review"
        else simple_moderation (ArticleCreateRequest.title payload)
                               (ArticleCreateRequest.content payload) in
      let doc :=
        Article.mk (ObjectId inserted_id)
          (ArticleCreateRequest.title payload)
          (ArticleCreateRequest.content payload)
          user_id
          (ArticleCreateRequest.language payload)
          (ArticleCreateRequest.region payload)
          (ArticleCreateRequest.categories payload)
          (ArticleCreateRequest.source payload)
          (ArticleCreateRequest.media_urls payload)
          true
          (Moderation.status moderation)
          (Some (Moderation.notes moderation))
          ∅
          (Some (clock 0%nat))
          (Some (clock 1%nat)) in
      (Return (CreateResponse.mk (id_str (Article._id doc))
                 (Moderation.status moderation) (Moderation.notes moderation)),
       insert_article db doc)
  end.

(** ** Articles: feed *)

(** [liked = {it["article_id"] for it in interactions if it.get("action") == "like"}];
    an interaction holds the article id as a [str]. *)
Definition liked_ids (interactions : list Interaction.t) : gset doc_id :=
  list_to_set
    (List.map (λ it, StrId (Interaction.article_id it))
       (List.filter (λ it, bool_decide (Interaction.action it = "like")) interactions)).

(** [len(set(article.get("categories", [])) & set(cats))] *)
Definition category_overlap (article : Article.t) (cats : list string) : nat :=
  size ((list_to_set (Article.categories article) : gset string) ∩ list_to_set cats).

(** The closure [score] of [get_feed], with the variables it captures
    ([cats], [liked]) and the clock reading [now] as arguments. *)
Definition score (cats : list string) (liked : gset doc_id) (now : datetime)
    (article : Article.t) : Q :=
  let s := 0%Q in
  let s :=
    if bool_decide (Article.moderation_status article = "approved")
    then (s + 5)%Q else s in
  let s :=
    match cats with
    | _ :: _ =>
        let overlap := category_overlap article cats in
        (s + inject_Z (Z.of_nat overlap) * 2)%Q
    | [] => s
    end in
  let s :=
    match Article.created_at article with
    | Some created =>
        let age_hours := Qmax 1 (total_seconds (now - created) / 3600) in
        (s + 10 / age_hours)%Q
    | None => s
    end in
  let s :=
    if bool_decide (Article._id article ∈ liked) then (s + 3)%Q else s in
  s.

(** [list.sort(key=..., reverse=True)]: every key is computed once, then the
    list is put in descending key order, equal keys keeping their order. *)
Fixpoint insert_desc {A} (k : Q) (x : A) (l : list (Q * A)) : list (Q * A) :=
  match l with
  | [] => [(k, x)]
  | (k', y) :: l' =>
      if Qle_bool k' k then (k, x) :: (k', y) :: l'
      else (k', y) :: insert_desc k x l'
  end.

Definition sort_keyed {A} (keyed : list (Q * A)) : list (Q * A) :=
  List.fold_right (λ kx acc, insert_desc (fst kx) (snd kx) acc) [] keyed.

Definition sort_reverse {A} (keyed : list (Q * A)) : list A :=
  List.map snd (sort_keyed keyed).

(** The item a feed entry starts as, before any translation. *)
Definition feed_item (a : Article.t) : FeedItem.t :=
  FeedItem.mk (id_str (Article._id a)) (Article.title a) (Article.content a)
    (Article.language a) (Article.region a) (Article.categories a)
    (Article.moderation_status a) (Article.created_at a).

(** [item["title"] = ...; item["content"] = ...; item["language"] = lang] *)
Definition translate_item (item : FeedItem.t) (translated : Translation.t) (lang : string)
  : FeedItem.t :=
  FeedItem.mk (FeedItem.id item) (Translation.title translated)
    (Translation.content translated) lang (FeedItem.region item)
    (FeedItem.categories item) (FeedItem.moderation_status item)
    (FeedItem.created_at item).

(** One pass of the loop [for a in articles[:limit]]: the store after it
    and the item appended to [feed]. *)
Definition feed_step (lang : option string) (db : Database.t) (a : Article.t)
  : Database.t * FeedItem.t :=
  let item := feed_item a in
  match lang with
  | Some l =>
      if Str.nonempty l && bool_decide (Article.language a ≠ l) then
        match Article.translated a !! l with
        | Some translated => (db, translate_item item translated l)
        | None =>
            let tr_title := simple_translate (Article.title a) l in
            let tr_content := simple_translate (Article.content a) l in
            let db := update_translation db (Article._id a) l
                        (Translation.mk tr_title tr_content) in
            let translated := Translation.mk tr_title tr_content in
            (db, translate_item item translated l)
        end
      else (db, item)
  | None => (db, item)
  end.

Fixpoint feed_loop (lang : option string) (db : Database.t) (articles : list Article.t)
  : Database.t * list FeedItem.t :=
  match articles with
  | [] => (db, [])
  | a :: rest =>
      let '(db, item) := feed_step lang db a in
      let '(db, feed) := feed_loop lang db rest in
      (db, item :: feed)
  end.

(** [get_feed]. [limit] is [None] when the request leaves it out (the
    default is 20); a value outside [1, 100] is turned down before the body
    runs. [clock i] is the time read while scoring the [i]-th candidate. *)
Definition get_feed (db : Database.t) (clock : nat → datetime) (user_id : string)
    (language region : option string) (limit : option Z)
  : outcome (list FeedItem.t) * Database.t :=
  let limit := default 20 limit in
  if negb ((1 <=? limit) && (limit <=? 100)) then (RequestValidationError, db) else
  let pref := find_one_preference db user_id in
  let lang := py_or language (pref ≫= Preference.language) in
  let reg := py_or region (pref ≫= Preference.region) in
  let cats := from_option Preference.categories [] pref in
  let base_filter :=
    ArticleFilter.mk (Some true)
      (if truthy lang then lang else None)
      (if truthy reg then reg else None) in
  let articles := find_articles db base_filter in
  let interactions := find_interactions db user_id in
  let liked := liked_ids interactions in
  let articles :=
    sort_reverse (imap (λ i a, (score cats liked (clock i) a, a)) articles) in
  let '(db, feed) := feed_loop lang db (slice_to articles limit) in
  (Return feed, db).

(** ** Articles: translate *)

(** The driver's [Collection.__getattr__]: an attribute the class does not
    define names a sub-collection, and a name that starts with an underscore
    is refused. *)
Definition collection_getattr (collection name : string) : outcome string :=
  if Str.starts_with "_" name then Raise AttributeError
  else Return (collection +:+ "." +:+ name).

(** The driver's [Collection.__call__]: a collection is not callable. *)
Definition collection_call {A} (collection : string) : outcome A := Raise TypeError.

(** The key expression of the first [find_one] of [translate_article],
    [db.article._Database__client.get_database()...(article_id)], evaluated
    left to right up to the point where it raises. *)
Definition client_document_id (article_id : string) : outcome doc_id :=
  bind (collection_getattr "article" "_Database__client") (λ client,
  bind (collection_getattr client "get_database") (λ get_database,
  collection_call get_database)).

Definition is_hex_digit (c : ascii) : bool :=
  let n := nat_of_ascii c in
  ((48 <=? n)%nat && (n <=? 57)%nat)
  || ((65 <=? n)%nat && (n <=? 70)%nat)
  || ((97 <=? n)%nat && (n <=? 102)%nat).

Fixpoint all_hex (s : string) : bool :=
  match s with
  | EmptyString => true
  | String c s' => is_hex_digit c && all_hex s'
  end.

(** [ObjectId(article_id)] for a [str]: 24 hexadecimal digits, or [InvalidId]
    ([None] here). *)
Definition parse_ObjectId (article_id : string) : option doc_id :=
  if (String.length article_id =? 24)%nat && all_hex article_id
  then Some (ObjectId (Str.lower article_id)) else None.

(** [translate_article] from the [bson] import on: parse the id, look the
    article up, translate, store, answer. *)
Definition translate_lookup (db : Database.t) (article_id target_lang : string)
  : outcome Translation.t * Database.t :=
  match parse_ObjectId article_id with
  | None => (HTTPException 400 "Invalid article id", db)
  | Some oid =>
      match find_one_article db oid with
      | None => (HTTPException 404 "Article not found", db)
      | Some a =>
          let tr_title := simple_translate (Article.title a) target_lang in
          let tr_content := simple_translate (Article.content a) target_lang in
          let db := update_translation db oid target_lang
                      (Translation.mk tr_title tr_content) in
          (Return (Translation.mk tr_title tr_content), db)
      end
  end.

(** [translate_article]: the first statement evaluates [client_document_id]
    for the key of a [find_one] whose result the later lookup replaces. *)
Definition translate_article (db : Database.t) (article_id target_lang : string)
  : outcome Translation.t * Database.t :=
  match client_document_id article_id with
  | Return _ => translate_lookup db article_id target_lang
  | HTTPException c d => (HTTPException c d, db)
  | RequestValidationError => (RequestValidationError, db)
  | Raise e => (Raise e, db)
  end.

(** The four addends of [score], in the order the closure adds them. *)
Definition moderation_bonus (article : Article.t) : Q :=
  if bool_decide (Article.moderation_status article = "approved") then 5%Q else 0%Q.

Definition category_term (cats : list string) (article : Article.t) : Q :=
  match cats with
  | _ :: _ => (inject_Z (Z.of_nat (category_overlap article cats)) * 2)%Q
  | [] => 0%Q
  end.

Definition recency_term (now : datetime) (article : Article.t) : Q :=
  match Article.created_at article with
  | Some created => (10 / Qmax 1 (total_seconds (now - created) / 3600))%Q
  | None => 0%Q
  end.

Definition like_bonus (liked : gset doc_id) (article : Article.t) : Q :=
  if bool_decide (Article._id article ∈ liked) then 3%Q else 0%Q.

(** ** Preferences *)

(** Body of [POST /users/{user_id}/preferences] and response of the [GET]. *)
Module PreferenceRequest.
Record t : Type := mk {
  language : option string;
  region : option string;
  categories : list string
}.
End PreferenceRequest.

(** [get_preferences]: the stored record, or the defaults when the user has
    none. *)
Definition get_preferences (db : Database.t) (user_id : string) : PreferenceRequest.t :=
  match find_one_preference db user_id with
  | None => PreferenceRequest.mk None None []
  | Some pref =>
      PreferenceRequest.mk (Preference.language pref) (Preference.region pref)
        (Preference.categories pref)
  end.

(** [update_one(..., upsert=True)]: the first match is changed, and without
    a match a new document is added. *)
Fixpoint upsert_first {A} (p : A → bool) (f : A → A) (new : A) (l : list A) : list A :=
  match l with
  | [] => [new]
  | x :: l' => if p x then f x :: l' else x :: upsert_first p f new l'
  end.

(** [$set] of a preference payload on a stored preference. *)
Definition set_preference_fields (payload : PreferenceRequest.t) (p : Preference.t)
  : Preference.t :=
  Preference.mk (Preference.user_id p) (PreferenceRequest.language payload)
    (PreferenceRequest.region payload) (PreferenceRequest.categories payload).

(** [$set] of language, region and categories on a user profile. *)
Definition set_user_fields (payload : PreferenceRequest.t) (u : User.t) : User.t :=
  User.mk (User._id u) (User.auth_provider u) (User.is_verified u)
    (PreferenceRequest.language payload) (PreferenceRequest.region payload)
    (PreferenceRequest.categories payload).

(** [set_preferences]: upsert of the preference record, then the same three
    fields on the user profile (no upsert there). Answers [{"status": "ok"}]. *)
Definition set_preferences (db : Database.t) (user_id : string)
    (payload : PreferenceRequest.t) : string * Database.t :=
  let preference :=
    upsert_first (λ p, bool_decide (Preference.user_id p = user_id))
      (set_preference_fields payload)
      (Preference.mk user_id (PreferenceRequest.language payload)
         (PreferenceRequest.region payload) (PreferenceRequest.categories payload))
      (Database.preference db) in
  let user :=
    update_first (λ u, bool_decide (User._id u = user_id))
      (set_user_fields payload) (Database.user db) in
  ("ok", Database.mk user (Database.article db) (Database.interaction db) preference).

(** ** Interactions *)

Module InteractionCreateRequest.
Record t : Type := mk {
  article_id : string;
  action : string;
  reading_time_sec : option Z;
  engagement : Q
}.
End InteractionCreateRequest.

(** [create_interaction]: appends one entry to the log; a missing reading
    time counts as 0 ([x or 0]). Answers [{"status": "ok"}]. *)
Definition create_interaction (db : Database.t) (clock : nat → datetime)
    (user_id : string) (payload : InteractionCreateRequest.t) : string * Database.t :=
  let inter :=
    Interaction.mk user_id
      (InteractionCreateRequest.article_id payload)
      (InteractionCreateRequest.action payload)
      (default 0 (InteractionCreateRequest.reading_time_sec payload))
      (if Qeq_bool (InteractionCreateRequest.engagement payload) 0 then 0%Q
       else InteractionCreateRequest.engagement payload)
      (Some (clock 0%nat)) in
  ("ok", Database.mk (Database.user db) (Database.article db)
           (Database.interaction db ++ [inter]) (Database.preference db)).

(** ** Admin helpers *)

(** [$set] of [is_verified] to [True]. *)
Definition set_verified (u : User.t) : User.t :=
  User.mk (User._id u) (User.auth_provider u) true (User.language u)
    (User.region u) (User.categories u).

(** [verify_user]. [ADMIN_SECRET] is the environment variable of that name,
    [None] when it is not set. The answer carries the user id. *)
Definition verify_user (ADMIN_SECRET : option string) (db : Database.t)
    (user_id secret : string) : outcome (string * string) * Database.t :=
  let admin_secret := default "secret" ADMIN_SECRET in
  if bool_decide (secret ≠ admin_secret) then (HTTPException 401 "Unauthorized", db)
  else
    (Return ("ok", user_id),
     Database.mk
       (update_first (λ u, bool_decide (User._id u = user_id)) set_verified
          (Database.user db))
       (Database.article db) (Database.interaction db) (Database.preference db)).

(** ** Sample data

    A small store used to run the handlers: an unverified and a verified
    user, two English articles (the second with a cached Spanish
    translation), a Spanish article, and one "like". *)
Module Sample.

Definition reader : User.t := User.mk "u1" "anonymous" false None None [].

Definition editor : User.t := User.mk "u2" "anonymous" true None None [].

Definition hello : Article.t :=
  Article.mk (ObjectId "0123456789abcdefabcdef01") "Hello" "World" "u2" "en"
    None ["tech"; "ai"] None [] true "approved" (Some "Auto-approved") ∅
    (Some 0) (Some 0).

Definition cached_es : Translation.t := Translation.mk "Hola (editado)" "Mundo (editado)".

Definition hello_cached : Article.t :=
  Article.mk (ObjectId "0123456789abcdefabcdef02") "Hello again" "World" "u2" "en"
    None ["sports"] None [] true "pending" (Some "Awaiting manual review")
    {[ "es" := cached_es ]} None None.

Definition hola : Article.t :=
  Article.mk (ObjectId "0123456789abcdefabcdef03") "hola" "mundo" "u2" "es"
    (Some "ES") [] None [] true "approved" (Some "Auto-approved") ∅
    (Some 3600000000) (Some 3600000000).

Definition like_hello : Interaction.t :=
  Interaction.mk "u1" "0123456789abcdefabcdef01" "like" 0 0 None.

Definition db : Database.t :=
  Database.mk [reader; editor] [hello; hello_cached; hola] [like_hello]
    [Preference.mk "u1" (Some "en") None ["tech"]].

(** A clock that stands at two hours past the epoch. *)
Definition clock : nat → datetime := λ _, 7200000000.

Definition flagged_payload : ArticleCreateRequest.t :=
  ArticleCreateRequest.mk "Fake news" "spreading hate" "en" None [] [] None.

End Sample.

(** * Properties *)

(** ** Strings *)

Section StrFacts.

Lemma app_cons (c : ascii) (s t : string) : String c s +:+ t = String c (s +:+ t).
Proof. reflexivity. Qed.

Lemma app_length (a b : string) :
  String.length (a +:+ b) = (String.length a + String.length b)%nat.
Proof.
  induction a as [|x a IH]; [done |].
  rewrite app_cons. simpl. by rewrite IH.
Qed.

Lemma starts_with_spec (w t : string) :
  Str.starts_with w t = true ↔ ∃ post, t = w +:+ post.
Proof.
  revert t. induction w as [|a w IH]; intros t; simpl.
  - split; [intros _; by exists t | done].
  - destruct t as [|b t].
    + split; [done | intros [post Hp]; discriminate Hp].
    + destruct (decide (a = b)) as [->|Hne].
      * rewrite IH. split; intros [post Hp]; exists post.
        -- by rewrite Hp.
        -- rewrite app_cons in Hp. by injection Hp.
      * split; [done |].
        intros [post Hp]. rewrite app_cons in Hp. injection Hp. intros; by subst.
Qed.

(** Containment is occurrence as a contiguous substring. *)
Lemma contains_spec (w t : string) :
  Str.contains w t = true ↔ ∃ pre post, t = pre +:+ w +:+ post.
Proof.
  induction t as [|b t IH].
  - simpl. rewrite orb_false_r, starts_with_spec. split.
    + intros [post Hp]. by exists "", post.
    + intros [pre [post Hp]]. destruct pre; [by exists post | discriminate Hp].
  - cbn [Str.contains]. rewrite orb_true_iff, starts_with_spec, IH. split.
    + intros [[post Hp] | [pre [post Hp]]].
      * by exists "", post.
      * exists (String b pre), post. rewrite app_cons. by rewrite Hp.
    + intros [pre [post Hp]]. destruct pre as [|c pre].
      * left. by exists post.
      * right. exists pre, post. rewrite app_cons in Hp. by injection Hp.
Qed.

End StrFacts.

(** ** Moderation gate *)

Section Moderation.

(** A keyword is reported exactly when it is banned and occurs in the text. *)
Lemma matched_keywords_spec (text w : string) :
  w ∈ matched_keywords text ↔
  w ∈ BANNED_KEYWORDS ∧ ∃ pre post, text = pre +:+ w +:+ post.
Proof.
  unfold matched_keywords.
  rewrite list_elem_of_In, filter_In, <- list_elem_of_In, elem_of_elements.
  by rewrite contains_spec.
Qed.

Lemma matched_keywords_NoDup (text : string) : NoDup (matched_keywords text).
Proof.
  unfold matched_keywords.
  generalize (NoDup_elements BANNED_KEYWORDS).
  induction 1 as [|x l Hx Hl IH]; simpl; [constructor |].
  destruct (Str.contains x text); [| done].
  constructor; [| done].
  rewrite list_elem_of_In, filter_In, <- list_elem_of_In. tauto.
Qed.

(** C9: the gate a verified author's submission goes through scans the
    lowercased text "title, line break, content" for the banned keywords as
    substrings. The reported keywords are exactly the banned ones occurring
    somewhere in that text (so also inside a longer word: "Hateful" is
    caught by "hate"); when there is one the verdict is rejected with the
    comma-joined list in the notes, otherwise it is approved. *)
Theorem simple_moderation_substring (title content : string) :
  let text := Str.lower (title +:+ newline +:+ content) in
  let matched := matched_keywords text in
  (∀ w, w ∈ matched ↔ w ∈ BANNED_KEYWORDS ∧ ∃ pre post, text = pre +:+ w +:+ post)
  ∧ NoDup matched
  ∧ ((∃ w, w ∈ BANNED_KEYWORDS ∧ ∃ pre post, text = pre +:+ w +:+ post) →
       simple_moderation title content =
         Moderation.mk "rejected" ("Contains flagged terms: " +:+ Str.join ", " matched))
  ∧ ((¬ ∃ w, w ∈ BANNED_KEYWORDS ∧ ∃ pre post, text = pre +:+ w +:+ post) →
       simple_moderation title content = Moderation.mk "approved" "Auto-approved")
  ∧ simple_moderation "Hateful" "remarks" =
      Moderation.mk "rejected" "Contains flagged terms: hate".
Proof.
  intros text matched.
  split; [intros w; apply matched_keywords_spec |].
  split; [apply matched_keywords_NoDup |].
  unfold simple_moderation, moderation_text. fold text. fold matched.
  split; [| split].
  - intros [w Hw]. apply matched_keywords_spec in Hw. fold matched in Hw.
    destruct matched; [by apply not_elem_of_nil in Hw | done].
  - intros Hnone. destruct matched as [|w rest] eqn:Hm; [done |].
    exfalso. apply Hnone. exists w. apply matched_keywords_spec.
    fold matched. rewrite Hm. apply list_elem_of_here.
  - by vm_compute.
Qed.

End Moderation.

(** ** Translator *)

Section Translator.

Lemma translation_prefix_grows (target_lang text : string) :
  ("[" +:+ target_lang +:+ " translation] ") +:+ text ≠ text.
Proof.
  intros Heq. apply (f_equal String.length) in Heq.
  rewrite !app_length in Heq. simpl in Heq. lia.
Qed.

(** C6, as amended: the translator leaves the text as it is exactly when the
    target language is "en"; for any other target it puts the marker
    "[<target> translation] " in front, whatever language the text is in. *)
Theorem simple_translate_identity_en (text target_lang : string) :
  (target_lang = "en" → simple_translate text target_lang = text)
  ∧ (target_lang ≠ "en" →
       simple_translate text target_lang
         = ("[" +:+ target_lang +:+ " translation] ") +:+ text
       ∧ simple_translate text target_lang ≠ text).
Proof.
  unfold simple_translate. split; intros H.
  - by rewrite decide_True.
  - rewrite decide_False by done. split; [done | apply translation_prefix_grows].
Qed.

(** C6, as stated, fails: a Spanish title translated to Spanish, the
    language it is written in, comes back with the marker in front. *)
Lemma simple_translate_same_language_changes :
  Article.language Sample.hola = "es"
  ∧ simple_translate (Article.title Sample.hola) (Article.language Sample.hola)
      = "[es translation] hola"
  ∧ simple_translate (Article.title Sample.hola) (Article.language Sample.hola)
      ≠ Article.title Sample.hola.
Proof. by vm_compute. Qed.

End Translator.

(** ** Relevance scorer *)

Section Scorer.

Local Open Scope Q_scope.

(** The score is the sum of its four addends. *)
Lemma score_sum (cats : list string) (liked : gset doc_id) (now : datetime)
    (article : Article.t) :
  score cats liked now article ==
    moderation_bonus article + category_term cats article
    + recency_term now article + like_bonus liked article.
Proof.
  unfold score, moderation_bonus, category_term, recency_term, like_bonus.
  destruct (bool_decide (Article.moderation_status article = "approved"));
    destruct cats as [|c cats];
    destruct (Article.created_at article) as [created|];
    destruct (bool_decide (Article._id article ∈ liked));
    cbv zeta; ring.
Qed.

Lemma liked_ids_spec (interactions : list Interaction.t) (i : doc_id) :
  i ∈ liked_ids interactions ↔
  ∃ it, it ∈ interactions ∧ Interaction.action it = "like"
        ∧ StrId (Interaction.article_id it) = i.
Proof.
  unfold liked_ids.
  rewrite elem_of_list_to_set, list_elem_of_In, in_map_iff. split.
  - intros [it [Hid Hin]]. apply filter_In in Hin as [Hin Hact].
    exists it. rewrite list_elem_of_In. by apply bool_decide_eq_true in Hact.
  - intros [it [Hin [Hact Hid]]]. exists it. split; [done |].
    apply filter_In. rewrite <- list_elem_of_In. split; [done |].
    by apply bool_decide_eq_true.
Qed.

(** An id the driver assigned is never in the liked set, which holds the
    [str] ids of the interaction log. *)
Lemma liked_ids_no_ObjectId (interactions : list Interaction.t) (hex : string) :
  ObjectId hex ∉ liked_ids interactions.
Proof. rewrite liked_ids_spec. by intros [it [_ [_ Hid]]]. Qed.

(** C4: the last addend of the score is 3 when the article's [_id] is in
    the set of ids taken from the user's "like" interactions and 0 when it
    is not; it has no other value. *)
Theorem like_bonus_binary (cats : list string) (interactions : list Interaction.t)
    (now : datetime) (article : Article.t) :
  let liked := liked_ids interactions in
  score cats liked now article ==
    moderation_bonus article + category_term cats article
    + recency_term now article + like_bonus liked article
  ∧ (like_bonus liked article = 3 ∨ like_bonus liked article = 0)
  ∧ (Article._id article ∈ liked → like_bonus liked article = 3)
  ∧ (Article._id article ∉ liked → like_bonus liked article = 0)
  ∧ (Article._id article ∈ liked ↔
       ∃ it, it ∈ interactions ∧ Interaction.action it = "like"
             ∧ StrId (Interaction.article_id it) = Article._id article).
Proof.
  intros liked. split; [apply score_sum |].
  unfold like_bonus.
  repeat split; try apply liked_ids_spec.
  - case_bool_decide; auto.
  - intros Hin. by rewrite bool_decide_eq_true_2.
  - intros Hout. by rewrite bool_decide_eq_false_2.
Qed.

Lemma recency_le_10 (age : Q) : 10 / Qmax 1 age <= 10.
Proof.
  assert (1 <= Qmax 1 age) as Hm by apply Q.le_max_l.
  apply Qle_shift_div_r; lra.
Qed.

Lemma recency_pos (age : Q) : 0 < 10 / Qmax 1 age.
Proof.
  assert (1 <= Qmax 1 age) as Hm by apply Q.le_max_l.
  apply Qlt_shift_div_l; lra.
Qed.

Lemma recency_young (age : Q) : age <= 1 → 10 / Qmax 1 age == 10.
Proof.
  intros Hage. rewrite (Q.max_l 1 age Hage). field.
Qed.

(** C5: for an article with a creation time the recency addend of the
    score is 10 / max(1, age in hours); it is at most 10, and exactly 10 as
    long as the age is at most one hour. Without a creation time the
    addend is zero. *)
Theorem recency_term_bounded (cats : list string) (liked : gset doc_id)
    (now : datetime) (article : Article.t) :
  score cats liked now article ==
    moderation_bonus article + category_term cats article
    + recency_term now article + like_bonus liked article
  ∧ match Article.created_at article with
    | Some created =>
        let age_in_hours := total_seconds (now - created) / 3600 in
        recency_term now article == 10 / Qmax 1 age_in_hours
        ∧ recency_term now article <= 10
        ∧ 0 < recency_term now article
        ∧ (age_in_hours <= 1 → recency_term now article == 10)
    | None => recency_term now article = 0
    end.
Proof.
  split; [apply score_sum |].
  unfold recency_term.
  destruct (Article.created_at article) as [created|]; [| done].
  cbv zeta. split; [done |]. split; [apply recency_le_10 |].
  split; [apply recency_pos | apply recency_young].
Qed.

End Scorer.

(** ** Store *)

Section Store.

Lemma update_first_find {A} (p : A → bool) (f : A → A) (l : list A) (x : A) :
  (∀ y, p y = true → p (f y) = true) →
  List.find p l = Some x →
  List.find p (update_first p f l) = Some (f x).
Proof.
  intros Hf. induction l as [|y l IH]; simpl; [done |].
  destruct (p y) eqn:Hy; simpl.
  - intros [= ->]. by rewrite (Hf _ Hy).
  - rewrite Hy. apply IH.
Qed.

Lemma update_first_find_other {A} (p q : A → bool) (f : A → A) (l : list A) :
  (∀ y, q y = true → p y = false ∧ p (f y) = false) →
  List.find p (update_first q f l) = List.find p l.
Proof.
  intros Hq. induction l as [|y l IH]; simpl; [done |].
  destruct (q y) eqn:Hy; simpl.
  - destruct (Hq y Hy) as [-> ->]. done.
  - by rewrite IH.
Qed.

(** An upsert on one article leaves the lookup of any other id alone. *)
Lemma update_translation_lookup_other (db : Database.t) (i j : doc_id) (lang : string)
    (tr : Translation.t) :
  i ≠ j →
  find_one_article (update_translation db j lang tr) i = find_one_article db i.
Proof.
  intros Hne. unfold find_one_article, update_translation. simpl.
  apply update_first_find_other. intros y Hy.
  apply bool_decide_eq_true in Hy. simpl.
  split; apply bool_decide_eq_false; congruence.
Qed.

(** After the upsert, a lookup of the article by id shows the new entry
    under the language, and the other languages as before. *)
Lemma update_translation_lookup (db : Database.t) (i : doc_id) (lang : string)
    (tr : Translation.t) (stored : Article.t) :
  find_one_article db i = Some stored →
  find_one_article (update_translation db i lang tr) i
    = Some (Article.set_translated lang tr stored).
Proof.
  unfold find_one_article, update_translation. simpl.
  apply update_first_find. by intros y Hy.
Qed.

Lemma set_translated_lookup (lang : string) (tr : Translation.t) (a : Article.t) :
  Article.translated (Article.set_translated lang tr a) !! lang = Some tr.
Proof. simpl. apply lookup_insert_eq. Qed.

Lemma set_translated_lookup_ne (lang lang' : string) (tr : Translation.t) (a : Article.t) :
  lang ≠ lang' →
  Article.translated (Article.set_translated lang tr a) !! lang'
    = Article.translated a !! lang'.
Proof. intros Hne. simpl. by apply lookup_insert_ne. Qed.

End Store.

(** ** Article submission *)

Section Submission.

(** C8: a submission by a user who is not verified is stored and answered
    with status "pending" and the note "Awaiting manual review", whatever
    its title and content are. *)
Theorem create_article_unverified_pending (db : Database.t) (clock : nat → datetime)
    (inserted_id user_id : string) (payload : ArticleCreateRequest.t) (user : User.t) :
  find_one_user db user_id = Some user →
  User.is_verified user = false →
  ∃ doc,
    create_article db clock inserted_id user_id payload
      = (Return (CreateResponse.mk inserted_id "pending" "Awaiting manual review"),
         insert_article db doc)
    ∧ Article.title doc = ArticleCreateRequest.title payload
    ∧ Article.content doc = ArticleCreateRequest.content payload
    ∧ Article.moderation_status doc = "pending"
    ∧ Article.moderation_notes doc = Some "Awaiting manual review".
Proof.
  intros Huser Hunverified. unfold create_article.
  rewrite Huser, Hunverified. simpl. eexists. by repeat split.
Qed.

(** The same payload goes through the keyword gate once the author is
    verified. *)
Example create_article_verified_flagged :
  (create_article Sample.db Sample.clock "0123456789abcdefabcdef04" "u2"
     Sample.flagged_payload).1
  = Return (CreateResponse.mk "0123456789abcdefabcdef04" "rejected"
              "Contains flagged terms: fake, hate").
Proof. by vm_compute. Qed.

Lemma create_article_unverified_pending_witness :
  find_one_user Sample.db "u1" = Some Sample.reader
  ∧ Str.contains "fake" (moderation_text "Fake news" "spreading hate") = true
  ∧ ∃ doc,
      create_article Sample.db Sample.clock "0123456789abcdefabcdef04" "u1"
        Sample.flagged_payload
        = (Return (CreateResponse.mk "0123456789abcdefabcdef04" "pending"
                     "Awaiting manual review"),
           insert_article Sample.db doc)
      ∧ Article.title doc = "Fake news"
      ∧ Article.content doc = "spreading hate"
      ∧ Article.moderation_status doc = "pending"
      ∧ Article.moderation_notes doc = Some "Awaiting manual review".
Proof.
  split; [reflexivity |]. split; [reflexivity |].
  apply (create_article_unverified_pending Sample.db Sample.clock
           "0123456789abcdefabcdef04" "u1" Sample.flagged_payload Sample.reader);
    reflexivity.
Defined.

End Submission.

(** ** Feed assembly *)

Section Feed.

Lemma insert_desc_perm {A} (k : Q) (x : A) (l : list (Q * A)) :
  insert_desc k x l ≡ₚ (k, x) :: l.
Proof.
  induction l as [|[k' y] l IH]; simpl; [done |].
  destruct (Qle_bool k' k); [done |].
  rewrite IH. apply Permutation_swap.
Qed.

(** Sorting neither drops nor duplicates a candidate. *)
Lemma sort_reverse_perm {A} (keyed : list (Q * A)) :
  sort_reverse keyed ≡ₚ List.map snd keyed.
Proof.
  unfold sort_reverse, sort_keyed. induction keyed as [|[k x] keyed IH]; simpl; [done |].
  rewrite <- IH.
  change (List.map snd ?l) with (snd <$> l).
  by rewrite insert_desc_perm.
Qed.

Lemma insert_desc_sorted {A} (k : Q) (x : A) (l : list (Q * A)) :
  Sorted (λ p q, (fst q <= fst p)%Q) l →
  Sorted (λ p q, (fst q <= fst p)%Q) (insert_desc k x l).
Proof.
  induction 1 as [|[k' y] l Hsorted IH Hhd]; simpl.
  - by repeat constructor.
  - destruct (Qle_bool k' k) eqn:Hle.
    + apply Qle_bool_iff in Hle. by repeat constructor.
    + assert (k <= k')%Q as Hge.
      { apply Qnot_lt_le. intros Hlt. apply Qlt_le_weak, Qle_bool_iff in Hlt.
        congruence. }
      constructor; [done |].
      destruct Hhd as [|[k'' z] l Hk]; simpl.
      * by constructor.
      * destruct (Qle_bool k'' k); by constructor.
Qed.

(** The keys come out in descending order. *)
Lemma sort_keyed_sorted {A} (keyed : list (Q * A)) :
  Sorted (λ p q, (fst q <= fst p)%Q) (sort_keyed keyed).
Proof.
  unfold sort_keyed. induction keyed as [|[k x] keyed IH]; simpl.
  - constructor.
  - by apply insert_desc_sorted.
Qed.

Lemma sort_reverse_length {A} (keyed : list (Q * A)) :
  length (sort_reverse keyed) = length keyed.
Proof. by rewrite sort_reverse_perm, length_map. Qed.

Lemma slice_to_length {A} (l : list A) (n : Z) :
  0 ≤ n → length (slice_to l n) = Nat.min (Z.to_nat n) (length l).
Proof.
  intros Hn. unfold slice_to.
  destruct (Z.leb_spec 0 n); [| lia]. apply length_take.
Qed.

(** The loop appends one item per article, built by [feed_step] from the
    article alone. *)
Lemma feed_step_item (lang : option string) (db db' : Database.t) (a : Article.t) :
  (feed_step lang db a).2 = (feed_step lang db' a).2.
Proof.
  unfold feed_step. destruct lang as [l|]; [| done].
  destruct (Str.nonempty l && bool_decide (Article.language a ≠ l)); [| done].
  by destruct (Article.translated a !! l).
Qed.

Lemma feed_loop_items (lang : option string) (db : Database.t) (articles : list Article.t) :
  (feed_loop lang db articles).2 = (λ a, (feed_step lang db a).2) <$> articles.
Proof.
  revert db. induction articles as [|a rest IH]; intros db; simpl; [done |].
  destruct (feed_step lang db a) as [db1 item] eqn:Hstep.
  specialize (IH db1). destruct (feed_loop lang db1 rest) as [db2 feed].
  simpl in *. rewrite IH. f_equal.
  apply list_fmap_ext. intros _ b _. apply feed_step_item.
Qed.

Lemma feed_loop_length (lang : option string) (db : Database.t) (articles : list Article.t) :
  length (feed_loop lang db articles).2 = length articles.
Proof. by rewrite feed_loop_items, length_fmap. Qed.

(** The store after the loop has gone over [before ++ [a]] is the store
    after [before] put through the pass for [a]. *)
Lemma feed_loop_snoc (lang : option string) (db : Database.t)
    (before : list Article.t) (a : Article.t) :
  (feed_loop lang db (before ++ [a])).1
    = (feed_step lang (feed_loop lang db before).1 a).1.
Proof.
  revert db. induction before as [|b before IH]; intros db; simpl.
  - by destruct (feed_step lang db a).
  - destruct (feed_step lang db b) as [db1 item].
    specialize (IH db1).
    destruct (feed_loop lang db1 (before ++ [a])) as [db2 feed].
    destruct (feed_loop lang db1 before) as [db3 feed'].
    done.
Qed.

(** C1: in the feed loop, an article whose language differs from the
    (non-empty) target language is emitted with the target language in its
    language field. Its title and content are those of the cached entry
    for that language when the article carries one, and the store is left
    alone; otherwise they are the translator's output for the title and
    the content, and the pass writes that pair under the target language
    into the stored article's translation cache. *)
Theorem feed_translation (l : string) (db : Database.t) (articles : list Article.t)
    (i : nat) (a : Article.t) :
  Str.nonempty l = true →
  articles !! i = Some a →
  Article.language a ≠ l →
  let before := (feed_loop (Some l) db (take i articles)).1 in
  let after := (feed_loop (Some l) db (take (S i) articles)).1 in
  ∃ item,
    (feed_loop (Some l) db articles).2 !! i = Some item
    ∧ FeedItem.language item = l
    ∧ FeedItem.id item = id_str (Article._id a)
    ∧ match Article.translated a !! l with
      | Some cached =>
          FeedItem.title item = Translation.title cached
          ∧ FeedItem.content item = Translation.content cached
          ∧ after = before
      | None =>
          let fresh :=
            Translation.mk (simple_translate (Article.title a) l)
                           (simple_translate (Article.content a) l) in
          FeedItem.title item = Translation.title fresh
          ∧ FeedItem.content item = Translation.content fresh
          ∧ after = update_translation before (Article._id a) l fresh
          ∧ ∀ stored,
              find_one_article before (Article._id a) = Some stored →
              ∃ stored',
                find_one_article after (Article._id a) = Some stored'
                ∧ Article.translated stored' !! l = Some fresh
      end.
Proof.
  intros Hl Hi Hne before after.
  exists (feed_step (Some l) db a).2.
  split; [by rewrite feed_loop_items, list_lookup_fmap, Hi |].
  assert (after = (feed_step (Some l) before a).1) as Hafter.
  { unfold after, before. rewrite (take_S_r _ _ _ Hi). apply feed_loop_snoc. }
  rewrite Hafter. clear Hafter.
  unfold feed_step. rewrite Hl. rewrite bool_decide_eq_true_2 by done. simpl.
  destruct (Article.translated a !! l) as [cached|] eqn:Hcache; simpl.
  - done.
  - repeat split. intros stored Hstored.
    eexists. split; [by apply update_translation_lookup |].
    apply lookup_insert_eq.
Qed.

Lemma feed_step_lookup_other (lang : option string) (db : Database.t)
    (a : Article.t) (i : doc_id) :
  Article._id a ≠ i →
  find_one_article (feed_step lang db a).1 i = find_one_article db i.
Proof.
  intros Hne. unfold feed_step.
  destruct lang as [l|]; [| done].
  destruct (Str.nonempty l && bool_decide (Article.language a ≠ l)); [| done].
  destruct (Article.translated a !! l); [done |].
  simpl. by apply update_translation_lookup_other.
Qed.

(** What the store holds for an article is still there at the end of the
    loop when none of the articles that follow has that article's id: a
    later lookup of the cache gives the pair that was written. *)
Lemma feed_loop_lookup_other (lang : option string) (db : Database.t)
    (rest : list Article.t) (i : doc_id) :
  (∀ b, b ∈ rest → Article._id b ≠ i) →
  find_one_article (feed_loop lang db rest).1 i = find_one_article db i.
Proof.
  revert db. induction rest as [|b rest IH]; intros db Hall; simpl; [done |].
  pose proof (feed_step_lookup_other lang db b i (Hall b (list_elem_of_here _ _))) as Hb.
  destruct (feed_step lang db b) as [db1 item].
  specialize (IH db1 (λ c Hc, Hall c (list_elem_of_further _ _ _ Hc))).
  destruct (feed_loop lang db1 rest) as [db2 feed]. simpl in *. congruence.
Qed.

(** On the sample store: the first English article has no Spanish entry,
    so it is translated and the pair is written back. *)
Lemma feed_translation_witness :
  let articles := [Sample.hello; Sample.hello_cached] in
  let fresh := Translation.mk "[es translation] Hello" "[es translation] World" in
  let before := (feed_loop (Some "es") Sample.db (take 0 articles)).1 in
  let after := (feed_loop (Some "es") Sample.db (take 1 articles)).1 in
  (Str.nonempty "es" = true
   ∧ articles !! 0%nat = Some Sample.hello
   ∧ Article.language Sample.hello ≠ "es")
  ∧ ∃ item,
      (feed_loop (Some "es") Sample.db articles).2 !! 0%nat = Some item
      ∧ FeedItem.language item = "es"
      ∧ FeedItem.id item = "0123456789abcdefabcdef01"
      ∧ FeedItem.title item = "[es translation] Hello"
      ∧ FeedItem.content item = "[es translation] World"
      ∧ after = update_translation before (Article._id Sample.hello) "es" fresh
      ∧ ∀ stored,
          find_one_article before (Article._id Sample.hello) = Some stored →
          ∃ stored',
            find_one_article after (Article._id Sample.hello) = Some stored'
            ∧ Article.translated stored' !! "es" = Some fresh.
Proof.
  intros articles fresh before after.
  split; [by repeat split |].
  apply (feed_translation "es" Sample.db articles 0 Sample.hello);
    [reflexivity | reflexivity | discriminate].
Defined.

(** The second one carries a Spanish entry, which is served as it is. *)
Example feed_step_cached :
  feed_step (Some "es") Sample.db Sample.hello_cached
  = (Sample.db,
     FeedItem.mk "0123456789abcdefabcdef02" "Hola (editado)" "Mundo (editado)" "es"
       None ["sports"] "pending" None).
Proof. by vm_compute. Qed.

(** What [find] keeps, said without the query record: published, in the
    resolved language when there is one, in the resolved region when there
    is one. *)
Lemma article_matches_spec (lang reg : option string) (a : Article.t) :
  article_matches
    (ArticleFilter.mk (Some true) (if truthy lang then lang else None)
       (if truthy reg then reg else None)) a = true
  ↔ Article.is_published a = true
    ∧ (truthy lang → lang = Some (Article.language a))
    ∧ (truthy reg → reg = Article.region a).
Proof.
  unfold article_matches, field_matches, region_matches. simpl.
  rewrite !andb_true_iff, bool_decide_eq_true.
  destruct (truthy lang) eqn:Hlang, (truthy reg) eqn:Hreg;
    destruct lang as [l|], reg as [r|]; try discriminate;
    rewrite ?bool_decide_eq_true; simpl; intuition congruence.
Qed.

Lemma filter_bool_decide {A} (f : A → bool) (P : A → Prop) `{∀ x, Decision (P x)}
    (l : list A) :
  (∀ x, f x = true ↔ P x) → List.filter f l = filter P l.
Proof.
  intros Hf. induction l as [|x l IH]; simpl; [done |].
  rewrite filter_cons, IH.
  destruct (f x) eqn:Hx; case_decide as HP; try done.
  - by apply Hf in Hx.
  - apply Hf in HP. congruence.
Qed.

(** C3: with the limit inside [1, 100] the request is served, and the feed
    has as many items as the limit allows of the published articles that
    are in the resolved language and region: the smaller of the two
    counts. *)
Theorem get_feed_length (db : Database.t) (clock : nat → datetime) (user_id : string)
    (language region : option string) (limit : option Z) :
  1 ≤ default 20 limit ≤ 100 →
  let pref := find_one_preference db user_id in
  let lang := py_or language (pref ≫= Preference.language) in
  let reg := py_or region (pref ≫= Preference.region) in
  let matching :=
    filter (λ a, Article.is_published a = true
                 ∧ (truthy lang → lang = Some (Article.language a))
                 ∧ (truthy reg → reg = Article.region a))
           (Database.article db) in
  ∃ feed db',
    get_feed db clock user_id language region limit = (Return feed, db')
    ∧ length feed = Nat.min (Z.to_nat (default 20 limit)) (length matching).
Proof.
  intros Hlimit pref lang reg matching. unfold get_feed.
  destruct (Z.leb_spec 1 (default 20 limit)); [| lia].
  destruct (Z.leb_spec (default 20 limit) 100); [| lia].
  simpl. fold pref. fold lang. fold reg.
  match goal with
  | |- context [feed_loop lang db ?arts] =>
      pose proof (feed_loop_length lang db arts) as Hlen;
      destruct (feed_loop lang db arts) as [db' feed]
  end.
  exists feed, db'. split; [done |].
  simpl in Hlen. rewrite Hlen, slice_to_length by lia.
  rewrite sort_reverse_length, length_imap.
  unfold find_articles, matching.
  by rewrite (filter_bool_decide _ _ _ (article_matches_spec lang reg)).
Qed.

Lemma get_feed_length_witness :
  1 ≤ default 20 (Some 2) ≤ 100
  ∧ ∃ feed db',
      get_feed Sample.db Sample.clock "u1" None None (Some 2) = (Return feed, db')
      ∧ length feed = 2%nat.
Proof.
  split; [by vm_compute |].
  apply (get_feed_length Sample.db Sample.clock "u1" None None (Some 2)).
  by vm_compute.
Defined.

(** No candidate is not an error: the feed is empty. *)
Example get_feed_no_candidates :
  (get_feed Sample.db Sample.clock "u1" (Some "fr") None None).1 = Return [].
Proof. by vm_compute. Qed.


(** *** The candidates are already in the target language

    The language that selects the candidates is the one the loop compares
    each candidate's language with, so inside [get_feed] the comparison
    never finds a difference. *)

Lemma imap_keyed_snd {A} (key : nat → A → Q) (l : list A) :
  snd <$> imap (λ i a, (key i a, a)) l = l.
Proof.
  revert key. induction l as [|x l IH]; intros key; [done |].
  rewrite imap_cons. simpl. f_equal. apply (IH (key ∘ S)).
Qed.

(** The ranked list is a rearrangement of what [find] returned. *)
Lemma ranked_perm {A} (key : nat → A → Q) (l : list A) :
  sort_reverse (imap (λ i a, (key i a, a)) l) ≡ₚ l.
Proof.
  rewrite sort_reverse_perm.
  change (List.map snd ?k) with (snd <$> k).
  by rewrite imap_keyed_snd.
Qed.

Lemma slice_to_subseteq {A} (l : list A) (n : Z) : slice_to l n ⊆ l.
Proof. unfold slice_to. destruct (0 <=? n); apply subseteq_take. Qed.

Lemma feed_step_same_language (lang : option string) (db : Database.t) (a : Article.t) :
  (truthy lang → lang = Some (Article.language a)) →
  feed_step lang db a = (db, feed_item a).
Proof.
  intros Hsame. unfold feed_step.
  destruct lang as [l|]; [| done].
  destruct (Str.nonempty l) eqn:Hl; [| done].
  simpl in Hsame. rewrite Hl in Hsame.
  specialize (Hsame I). injection Hsame as ->.
  by rewrite bool_decide_eq_false_2 by auto.
Qed.

Lemma feed_loop_same_language (lang : option string) (db : Database.t)
    (articles : list Article.t) :
  (∀ a, a ∈ articles → truthy lang → lang = Some (Article.language a)) →
  feed_loop lang db articles = (db, feed_item <$> articles).
Proof.
  induction articles as [|a rest IH]; intros Hall; simpl; [done |].
  rewrite feed_step_same_language by (apply Hall; left).
  rewrite IH; [done |].
  intros b Hb. apply Hall. by right.
Qed.

(** As [get_feed] is written, every candidate it hands to the loop is in
    the resolved language already: the items are the stored articles as
    they are, no translation is computed and nothing is written. *)
Lemma get_feed_untranslated (db : Database.t) (clock : nat → datetime)
    (user_id : string) (language region : option string) (limit : option Z) :
  (get_feed db clock user_id language region limit).2 = db
  ∧ ∀ feed item,
      (get_feed db clock user_id language region limit).1 = Return feed →
      item ∈ feed →
      ∃ a, a ∈ Database.article db ∧ item = feed_item a.
Proof.
  unfold get_feed.
  destruct (negb _); [split; [done | intros ?? [=]] |].
  cbv zeta.
  set (pref := find_one_preference db user_id).
  set (lang := py_or language (pref ≫= Preference.language)).
  set (reg := py_or region (pref ≫= Preference.region)).
  set (q := ArticleFilter.mk _ _ _).
  set (ranked := sort_reverse _).
  assert (∀ a, a ∈ slice_to ranked (default 20 limit) →
            a ∈ Database.article db ∧ (truthy lang → lang = Some (Article.language a)))
    as Hsel.
  { intros a Ha. apply slice_to_subseteq in Ha.
    unfold ranked in Ha. rewrite ranked_perm in Ha.
    unfold find_articles in Ha.
    apply list_elem_of_In, filter_In in Ha as [Hin Hm].
    apply article_matches_spec in Hm. rewrite list_elem_of_In. tauto. }
  rewrite feed_loop_same_language by (intros a Ha; by apply Hsel).
  split; [done |].
  intros feed item [= <-] Hitem.
  apply list_elem_of_fmap in Hitem as [a [-> Ha]].
  exists a. split; [by apply Hsel | done].
Qed.

(** The scenario "feed in Spanish for an article stored in English": the
    English articles are not candidates at all. *)
Example get_feed_es_skips_en :
  (get_feed Sample.db Sample.clock "u1" (Some "es") None None).1
  = Return [feed_item Sample.hola].
Proof. by vm_compute. Qed.

End Feed.

(** ** Translation endpoint *)

Section TranslateEndpoint.

(** The key expression of the first lookup raises for every id: the
    attribute it asks the collection for starts with an underscore. *)
Lemma client_document_id_raises (article_id : string) :
  client_document_id article_id = Raise AttributeError.
Proof. reflexivity. Qed.

(** The part of the handler after the first statement does validate: an id
    that is not an [ObjectId] is answered with 400, an id without an
    article with 404, and in both cases the store stays as it was. *)
Lemma translate_lookup_rejects (db : Database.t) (article_id target_lang : string) :
  (parse_ObjectId article_id = None →
     translate_lookup db article_id target_lang
       = (HTTPException 400 "Invalid article id", db))
  ∧ (∀ oid, parse_ObjectId article_id = Some oid →
       find_one_article db oid = None →
       translate_lookup db article_id target_lang
         = (HTTPException 404 "Article not found", db)).
Proof.
  unfold translate_lookup. split.
  - by intros ->.
  - by intros oid -> ->.
Qed.

(** For an article that exists it calls the translator on title and
    content without looking at the cache, stores the pair under the target
    language and returns it. *)
Lemma translate_lookup_found (db : Database.t) (article_id target_lang : string)
    (oid : doc_id) (a : Article.t) :
  parse_ObjectId article_id = Some oid →
  find_one_article db oid = Some a →
  let fresh :=
    Translation.mk (simple_translate (Article.title a) target_lang)
                   (simple_translate (Article.content a) target_lang) in
  translate_lookup db article_id target_lang
    = (Return fresh, update_translation db oid target_lang fresh)
  ∧ ∃ stored,
      find_one_article (update_translation db oid target_lang fresh) oid = Some stored
      ∧ Article.translated stored !! target_lang = Some fresh.
Proof.
  intros Hparse Hfind fresh. unfold translate_lookup.
  rewrite Hparse, Hfind. split; [done |].
  eexists. split; [by apply update_translation_lookup |].
  apply lookup_insert_eq.
Qed.

(** C2 (the handler does not get as far as the validation): whatever id
    is sent, malformed or unknown, [translate_article] ends in the
    [AttributeError] of its first statement, not in the 400 or 404 that
    the statements after it would give; the store is untouched. *)
Theorem translate_article_raises_before_validation :
  translate_article Sample.db "not-an-id" "es" = (Raise AttributeError, Sample.db)
  ∧ translate_lookup Sample.db "not-an-id" "es"
      = (HTTPException 400 "Invalid article id", Sample.db)
  ∧ translate_article Sample.db "0123456789abcdefabcdef09" "es"
      = (Raise AttributeError, Sample.db)
  ∧ translate_lookup Sample.db "0123456789abcdefabcdef09" "es"
      = (HTTPException 404 "Article not found", Sample.db)
  ∧ ∀ (db : Database.t) (article_id target_lang : string),
      translate_article db article_id target_lang = (Raise AttributeError, db).
Proof. by repeat split. Qed.

(** C7 (same first statement): for an article that exists the handler
    raises as well, so it neither translates nor stores nor returns a
    pair; the statements after the first one would have returned the fresh
    pair, ignoring the cached Spanish entry. *)
Theorem translate_article_raises_before_translation :
  find_one_article Sample.db (ObjectId "0123456789abcdefabcdef02")
    = Some Sample.hello_cached
  ∧ translate_article Sample.db "0123456789abcdefabcdef02" "es"
      = (Raise AttributeError, Sample.db)
  ∧ (translate_lookup Sample.db "0123456789abcdefabcdef02" "es").1
      = Return (Translation.mk "[es translation] Hello again" "[es translation] World").
Proof. by repeat split. Qed.

End TranslateEndpoint.

(** * Further properties of the handlers *)

(** ** Moderation: case and the title/content boundary *)

Section ModerationFields.

Lemma lower_ascii_idemp (c : ascii) : Str.lower_ascii (Str.lower_ascii c) = Str.lower_ascii c.
Proof. by destruct c as [[] [] [] [] [] [] [] []]. Qed.

Lemma lower_idemp (s : string) : Str.lower (Str.lower s) = Str.lower s.
Proof.
  induction s as [|c s IH]; simpl; [done |].
  by rewrite lower_ascii_idemp, IH.
Qed.

Lemma lower_app (a b : string) : Str.lower (a +:+ b) = Str.lower a +:+ Str.lower b.
Proof.
  induction a as [|c a IH]; [done |].
  rewrite app_cons. simpl. by rewrite IH.
Qed.

Lemma moderation_text_fields (title content : string) :
  moderation_text title content
    = Str.lower title +:+ String (ascii_of_nat 10) (Str.lower content).
Proof. unfold moderation_text. by rewrite !lower_app. Qed.

(** A word without the character [c] cannot start across a [c]. *)
Lemma starts_with_app_char (w a b : string) (c : ascii) :
  c ∉ String.list_ascii_of_string w →
  Str.starts_with w (a +:+ String c b) = Str.starts_with w a.
Proof.
  revert a. induction w as [|x w IH]; intros a Hc; [done |].
  simpl in Hc. apply not_elem_of_cons in Hc as [Hx Hw].
  destruct a as [|y a].
  - simpl. by rewrite decide_False by done.
  - rewrite app_cons. simpl. destruct (decide (x = y)); [by apply IH | done].
Qed.

(** Nor can it occur across one: it occurs on one side or on the other. *)
Lemma contains_app_char (w a b : string) (c : ascii) :
  c ∉ String.list_ascii_of_string w →
  w ≠ "" →
  Str.contains w (a +:+ String c b) = Str.contains w a || Str.contains w b.
Proof.
  intros Hc Hw. induction a as [|y a IH].
  - change ("" +:+ String c b) with (String c b). cbn [Str.contains].
    change (String c b) with ("" +:+ String c b) at 1.
    rewrite starts_with_app_char by done.
    by destruct w.
  - rewrite app_cons. cbn [Str.contains]. rewrite IH.
    change (String y (a +:+ String c b)) with (String y a +:+ String c b).
    rewrite starts_with_app_char by done.
    by rewrite orb_assoc.
Qed.

Lemma banned_keyword_cases (w : string) :
  w ∈ BANNED_KEYWORDS ↔ w = "fake" ∨ w = "terror" ∨ w = "hate".
Proof.
  unfold BANNED_KEYWORDS. rewrite !elem_of_union, !elem_of_singleton. tauto.
Qed.

Lemma banned_keyword_one_line (w : string) :
  w ∈ BANNED_KEYWORDS →
  (ascii_of_nat 10 ∉ String.list_ascii_of_string w) ∧ w ≠ "".
Proof.
  rewrite banned_keyword_cases. intros [-> | [-> | ->]]; split; try done; simpl;
    rewrite !not_elem_of_cons; repeat split; try discriminate; apply not_elem_of_nil.
Qed.

(** X1: the verdict does not depend on letter case: a submission and its
    lowercased form get the same status and the same notes. *)
Theorem simple_moderation_case_insensitive (title content : string) :
  simple_moderation title content
    = simple_moderation (Str.lower title) (Str.lower content).
Proof.
  unfold simple_moderation.
  by rewrite !moderation_text_fields, !lower_idemp.
Qed.

Lemma simple_moderation_per_field_holds (title content : string) :
  (Moderation.status (simple_moderation title content) = "rejected"
   ↔ ∃ w, w ∈ BANNED_KEYWORDS
          ∧ (Str.contains w (Str.lower title) = true
             ∨ Str.contains w (Str.lower content) = true))
  ∧ (Moderation.status (simple_moderation title content) = "rejected"
     ∨ simple_moderation title content = Moderation.mk "approved" "Auto-approved").
Proof.
  assert (∀ w, w ∈ matched_keywords (moderation_text title content) ↔
            w ∈ BANNED_KEYWORDS
            ∧ (Str.contains w (Str.lower title) = true
               ∨ Str.contains w (Str.lower content) = true)) as Hmatched.
  { intros w. rewrite matched_keywords_spec, <- contains_spec. split.
    - intros [Hw Hin]. split; [done |].
      destruct (banned_keyword_one_line w Hw) as [Hnl Hne].
      rewrite moderation_text_fields in Hin.
      rewrite contains_app_char in Hin by done. by apply orb_true_iff.
    - intros [Hw Hin]. split; [done |].
      destruct (banned_keyword_one_line w Hw) as [Hnl Hne].
      rewrite moderation_text_fields.
      rewrite contains_app_char by done. by apply orb_true_iff. }
  unfold simple_moderation.
  destruct (matched_keywords (moderation_text title content)) as [|w rest] eqn:Hm;
    simpl.
  - split; [| by right]. split; [done |].
    intros [w Hw]. apply Hmatched in Hw. destruct (not_elem_of_nil w Hw).
  - split; [| by left]. split; [| done].
    intros _. exists w. apply Hmatched. apply list_elem_of_here.
Qed.

(** X2: title and content are scanned apart: the status is "rejected"
    exactly when a banned keyword occurs in the lowercased title or in the
    lowercased content, and "approved" otherwise. A keyword that only
    appears when the end of the title is read together with the start of
    the content is not found. *)
Theorem simple_moderation_per_field (title content : string) :
  (Moderation.status (simple_moderation title content) = "rejected"
   ↔ ∃ w, w ∈ BANNED_KEYWORDS
          ∧ (Str.contains w (Str.lower title) = true
             ∨ Str.contains w (Str.lower content) = true))
  ∧ (Moderation.status (simple_moderation title content) = "rejected"
     ∨ simple_moderation title content = Moderation.mk "approved" "Auto-approved").
Proof. exact (simple_moderation_per_field_holds title content). Qed.

(** The keyword "fake" spread over the end of the title and the start of
    the content passes. *)
Example simple_moderation_split_keyword :
  simple_moderation "This is fa" "ke news" = Moderation.mk "approved" "Auto-approved".
Proof. by vm_compute. Qed.

End ModerationFields.

(** ** Article submission: what is stored and answered *)

Section SubmissionEffects.

Lemma find_app_fresh {A} (p : A → bool) (l : list A) (x : A) :
  List.find p l = None → List.find p (l ++ [x]) = if p x then Some x else None.
Proof.
  induction l as [|y l IH]; simpl; [done |].
  destruct (p y); [done | exact IH].
Qed.

Lemma find_app_found {A} (p : A → bool) (l : list A) (x y : A) :
  List.find p l = Some y → List.find p (l ++ [x]) = Some y.
Proof.
  induction l as [|z l IH]; simpl; [done |].
  destruct (p z); [done | exact IH].
Qed.

Lemma create_article_effect_holds (db : Database.t) (clock : nat → datetime)
    (inserted_id user_id : string) (payload : ArticleCreateRequest.t) :
  match find_one_user db user_id with
  | None =>
      create_article db clock inserted_id user_id payload
        = (HTTPException 404 "User not found", db)
  | Some _ =>
      ∃ doc db',
        create_article db clock inserted_id user_id payload
          = (Return (CreateResponse.mk (id_str (Article._id doc))
                       (Article.moderation_status doc)
                       (default "" (Article.moderation_notes doc))), db')
        ∧ is_Some (Article.moderation_notes doc)
        ∧ Database.article db' = Database.article db ++ [doc]
        ∧ Database.user db' = Database.user db
        ∧ Database.interaction db' = Database.interaction db
        ∧ Database.preference db' = Database.preference db
        ∧ Article._id doc = ObjectId inserted_id
        ∧ Article.author_id doc = user_id
        ∧ Article.title doc = ArticleCreateRequest.title payload
        ∧ Article.content doc = ArticleCreateRequest.content payload
        ∧ Article.language doc = ArticleCreateRequest.language payload
        ∧ Article.region doc = ArticleCreateRequest.region payload
        ∧ Article.categories doc = ArticleCreateRequest.categories payload
        ∧ Article.is_published doc = true
        ∧ Article.translated doc = ∅
        ∧ Article.created_at doc = Some (clock 0%nat)
  end.
Proof.
  unfold create_article.
  destruct (find_one_user db user_id) as [user|]; [| done].
  match goal with
  | |- context [insert_article db ?d] => exists d, (insert_article db d)
  end.
  simpl. by repeat split.
Qed.


Lemma create_article_verified_verdict_holds (db : Database.t) (clock : nat → datetime)
    (inserted_id user_id : string) (payload : ArticleCreateRequest.t) (user : User.t) :
  find_one_user db user_id = Some user →
  User.is_verified user = true →
  ∃ doc,
    (create_article db clock inserted_id user_id payload).2 = insert_article db doc
    ∧ (∃ notes,
         (create_article db clock inserted_id user_id payload).1
           = Return (CreateResponse.mk inserted_id (Article.moderation_status doc) notes))
    ∧ (Article.moderation_status doc = "rejected"
       ∨ Article.moderation_status doc = "approved")
    ∧ (Article.moderation_status doc = "rejected"
       ↔ ∃ w, w ∈ BANNED_KEYWORDS
              ∧ (Str.contains w (Str.lower (ArticleCreateRequest.title payload)) = true
                 ∨ Str.contains w (Str.lower (ArticleCreateRequest.content payload)) = true)).
Proof.
  intros Huser Hverified. unfold create_article. rewrite Huser, Hverified. simpl.
  eexists. split; [reflexivity |]. split; [by eexists |]. simpl.
  destruct (simple_moderation_per_field_holds (ArticleCreateRequest.title payload)
              (ArticleCreateRequest.content payload)) as [Hiff Hcases].
  split; [| exact Hiff].
  destruct Hcases as [Hrej | Happ]; [by left | right; by rewrite Happ].
Qed.

(** X4: once the author is verified the verdict comes from the keyword
    scan alone: the stored status is "rejected" exactly when a banned
    keyword occurs in the lowercased title or content and "approved"
    otherwise, never "pending". *)
Theorem create_article_verified_verdict (db : Database.t) (clock : nat → datetime)
    (inserted_id user_id : string) (payload : ArticleCreateRequest.t) (user : User.t) :
  find_one_user db user_id = Some user →
  User.is_verified user = true →
  ∃ doc,
    (create_article db clock inserted_id user_id payload).2 = insert_article db doc
    ∧ (∃ notes,
         (create_article db clock inserted_id user_id payload).1
           = Return (CreateResponse.mk inserted_id (Article.moderation_status doc) notes))
    ∧ (Article.moderation_status doc = "rejected"
       ∨ Article.moderation_status doc = "approved")
    ∧ (Article.moderation_status doc = "rejected"
       ↔ ∃ w, w ∈ BANNED_KEYWORDS
              ∧ (Str.contains w (Str.lower (ArticleCreateRequest.title payload)) = true
                 ∨ Str.contains w (Str.lower (ArticleCreateRequest.content payload)) = true)).
Proof. exact (create_article_verified_verdict_holds db clock inserted_id user_id payload user). Qed.

Lemma create_article_verified_verdict_witness :
  (find_one_user Sample.db "u2" = Some Sample.editor
   ∧ User.is_verified Sample.editor = true)
  ∧ ∃ doc,
      (create_article Sample.db Sample.clock "0123456789abcdefabcdef04" "u2"
         Sample.flagged_payload).2 = insert_article Sample.db doc
      ∧ (∃ notes,
           (create_article Sample.db Sample.clock "0123456789abcdefabcdef04" "u2"
              Sample.flagged_payload).1
             = Return (CreateResponse.mk "0123456789abcdefabcdef04"
                         (Article.moderation_status doc) notes))
      ∧ (Article.moderation_status doc = "rejected"
         ∨ Article.moderation_status doc = "approved")
      ∧ (Article.moderation_status doc = "rejected"
         ↔ ∃ w, w ∈ BANNED_KEYWORDS
                ∧ (Str.contains w
                     (Str.lower (ArticleCreateRequest.title Sample.flagged_payload)) = true
                   ∨ Str.contains w
                       (Str.lower (ArticleCreateRequest.content Sample.flagged_payload))
                     = true)).
Proof.
  split; [by split |].
  apply (create_article_verified_verdict Sample.db Sample.clock
           "0123456789abcdefabcdef04" "u2" Sample.flagged_payload Sample.editor);
    reflexivity.
Defined.

(** X5: when no stored article has the id the driver hands out, the new
    article is found under that id right after the submission, and every
    article that could be looked up before is still found as it was. *)
Theorem create_article_then_lookup (db : Database.t) (clock : nat → datetime)
    (inserted_id user_id : string) (payload : ArticleCreateRequest.t) (user : User.t) :
  find_one_user db user_id = Some user →
  find_one_article db (ObjectId inserted_id) = None →
  let db' := (create_article db clock inserted_id user_id payload).2 in
  (∃ doc,
     find_one_article db' (ObjectId inserted_id) = Some doc
     ∧ Article.title doc = ArticleCreateRequest.title payload
     ∧ Article.content doc = ArticleCreateRequest.content payload
     ∧ Article.author_id doc = user_id)
  ∧ ∀ i a, find_one_article db i = Some a → find_one_article db' i = Some a.
Proof.
  intros Huser Hfresh db'. unfold db', create_article. rewrite Huser. simpl.
  unfold find_one_article, insert_article in *. simpl. split.
  - eexists. split.
    + rewrite (find_app_fresh _ _ _ Hfresh). simpl.
      by rewrite bool_decide_eq_true_2.
    + by repeat split.
  - intros i a Hfound. by apply find_app_found.
Qed.

Lemma create_article_then_lookup_witness :
  (find_one_user Sample.db "u1" = Some Sample.reader
   ∧ find_one_article Sample.db (ObjectId "0123456789abcdefabcdef04") = None)
  ∧ (∃ doc,
       find_one_article
         (create_article Sample.db Sample.clock "0123456789abcdefabcdef04" "u1"
            Sample.flagged_payload).2 (ObjectId "0123456789abcdefabcdef04") = Some doc
       ∧ Article.title doc = "Fake news"
       ∧ Article.content doc = "spreading hate"
       ∧ Article.author_id doc = "u1")
  ∧ ∀ i a,
      find_one_article Sample.db i = Some a →
      find_one_article
        (create_article Sample.db Sample.clock "0123456789abcdefabcdef04" "u1"
           Sample.flagged_payload).2 i = Some a.
Proof.
  split; [by split |].
  apply (create_article_then_lookup Sample.db Sample.clock
           "0123456789abcdefabcdef04" "u1" Sample.flagged_payload Sample.reader);
    reflexivity.
Defined.

End SubmissionEffects.

(** ** Feed: candidates, order and bounds *)

Section FeedOrder.

Local Open Scope Q_scope.

Lemma sort_keyed_perm {A} (keyed : list (Q * A)) : sort_keyed keyed ≡ₚ keyed.
Proof.
  unfold sort_keyed. induction keyed as [|[k x] keyed IH]; simpl; [done |].
  by rewrite insert_desc_perm, IH.
Qed.

Global Instance key_order_trans {A} :
  Transitive (λ p q : Q * A, fst q <= fst p).
Proof. intros p q r Hpq Hqr. simpl in *. by apply Qle_trans with (fst q). Qed.

Lemma StronglySorted_keyed_snd {A} (key : A → Q) (l : list (Q * A)) :
  Forall (λ p, fst p = key (snd p)) l →
  StronglySorted (λ p q, fst q <= fst p) l →
  StronglySorted (λ a b, key b <= key a) (snd <$> l).
Proof.
  intros Hkeys Hsorted.
  induction Hsorted as [|p l Hsorted IH Hall]; simpl; [constructor |].
  apply Forall_cons in Hkeys as [Hp Hl].
  constructor; [by apply IH |].
  apply Forall_fmap. rewrite Forall_forall in Hl |- *. rewrite Forall_forall in Hall.
  intros q Hq. simpl. rewrite <- Hp, <- (Hl q Hq). by apply Hall.
Qed.

(** Ranking by a key that does not depend on the position: the result is in
    descending key order. *)
Lemma ranked_sorted {A} (key : A → Q) (l : list A) :
  StronglySorted (λ a b, key b <= key a)
    (sort_reverse (imap (λ _ a, (key a, a)) l)).
Proof.
  unfold sort_reverse. change (List.map snd ?k) with (snd <$> k).
  apply StronglySorted_keyed_snd.
  - rewrite Forall_forall. intros p Hp. rewrite sort_keyed_perm in Hp.
    apply elem_of_lookup_imap in Hp as (i & a & -> & _). done.
  - apply Sorted_StronglySorted; [apply _ |]. apply sort_keyed_sorted.
Qed.

Lemma insert_desc_filter_key {A} (k k0 : Q) (x : A) (l : list (Q * A)) :
  List.filter (λ p, Qeq_bool (fst p) k0) (insert_desc k x l)
  = List.filter (λ p, Qeq_bool (fst p) k0) ((k, x) :: l).
Proof.
  induction l as [|[k' y] l IH]; [done |].
  cbn [insert_desc]. destruct (Qle_bool k' k) eqn:Hle; [done |].
  cbn [List.filter fst] in *. rewrite IH.
  destruct (Qeq_bool k k0) eqn:Hk; [| done].
  destruct (Qeq_bool k' k0) eqn:Hk'; [| done].
  apply Qeq_bool_iff in Hk, Hk'.
  assert (k' <= k) as Hle' by (rewrite Hk, Hk'; apply Qle_refl).
  apply Qle_bool_iff in Hle'. congruence.
Qed.

(** X9: the sort is stable. Among the articles that share a key, the order
    after [sort(key=..., reverse=True)] is the order before it, so
    candidates with equal scores stay in the order the store returned
    them. *)
Theorem sort_reverse_stable {A} (key : A → Q) (k0 : Q) (l : list A) :
  List.filter (λ a, Qeq_bool (key a) k0) (sort_reverse (imap (λ _ a, (key a, a)) l))
  = List.filter (λ a, Qeq_bool (key a) k0) l.
Proof.
  assert (∀ keyed : list (Q * A),
            List.filter (λ p, Qeq_bool (fst p) k0) (sort_keyed keyed)
            = List.filter (λ p, Qeq_bool (fst p) k0) keyed) as Hkeyed.
  { unfold sort_keyed. induction keyed as [|[k x] keyed IH]; [done |].
    cbn [fold_right fst snd]. rewrite insert_desc_filter_key.
    cbn [List.filter fst]. by rewrite IH. }
  assert (∀ keyed : list (Q * A),
            Forall (λ p, fst p = key (snd p)) keyed →
            List.filter (λ a, Qeq_bool (key a) k0) (List.map snd keyed)
            = List.map snd (List.filter (λ p, Qeq_bool (fst p) k0) keyed)) as Hsnd.
  { induction 1 as [|[k x] keyed Hk Hall IH]; [done |].
    simpl in *. subst k. rewrite IH. by destruct (Qeq_bool (key x) k0). }
  unfold sort_reverse. rewrite Hsnd.
  - rewrite Hkeyed, <- Hsnd.
    + change (List.map snd ?k) with (snd <$> k). by rewrite imap_keyed_snd.
    + rewrite Forall_forall. intros p Hp.
      apply elem_of_lookup_imap in Hp as (i & a & -> & _). done.
  - rewrite Forall_forall. intros p Hp. rewrite sort_keyed_perm in Hp.
    apply elem_of_lookup_imap in Hp as (i & a & -> & _). done.
Qed.

(** The whole of [get_feed] for a limit inside the bounds: the candidates,
    ranked, cut at the limit, emitted as they are stored; the store is
    handed back unchanged. *)
Lemma get_feed_eq (db : Database.t) (clock : nat → datetime) (user_id : string)
    (language region : option string) (limit : option Z) :
  (1 <= default 20%Z limit <= 100)%Z →
  let pref := find_one_preference db user_id in
  let lang := py_or language (pref ≫= Preference.language) in
  let reg := py_or region (pref ≫= Preference.region) in
  let cats := from_option Preference.categories [] pref in
  let liked := liked_ids (find_interactions db user_id) in
  let candidates :=
    find_articles db
      (ArticleFilter.mk (Some true) (if truthy lang then lang else None)
         (if truthy reg then reg else None)) in
  get_feed db clock user_id language region limit
  = (Return (feed_item <$>
               slice_to (sort_reverse
                           (imap (λ i a, (score cats liked (clock i) a, a)) candidates))
                        (default 20%Z limit)),
     db).
Proof.
  intros Hlimit pref lang reg cats liked candidates. unfold get_feed.
  destruct (Z.leb_spec 1 (default 20%Z limit)); [| lia].
  destruct (Z.leb_spec (default 20%Z limit) 100); [| lia].
  cbv zeta. simpl negb. cbv iota.
  fold pref. fold lang. fold reg. fold cats. fold liked. fold candidates.
  rewrite feed_loop_same_language; [done |].
  intros a Ha. apply slice_to_subseteq in Ha. rewrite ranked_perm in Ha.
  unfold candidates, find_articles in Ha.
  apply list_elem_of_In, filter_In in Ha as [_ Hm].
  apply article_matches_spec in Hm. tauto.
Qed.

Lemma get_feed_items_sound_holds (db : Database.t) (clock : nat → datetime)
    (user_id : string) (language region : option string) (limit : option Z) :
  let pref := find_one_preference db user_id in
  let lang := py_or language (pref ≫= Preference.language) in
  let reg := py_or region (pref ≫= Preference.region) in
  (get_feed db clock user_id language region limit).2 = db
  ∧ ∀ feed item,
      (get_feed db clock user_id language region limit).1 = Return feed →
      item ∈ feed →
      ∃ a, a ∈ Database.article db
           ∧ item = feed_item a
           ∧ Article.is_published a = true
           ∧ (truthy lang → lang = Some (Article.language a))
           ∧ (truthy reg → reg = Article.region a).
Proof.
  intros pref lang reg.
  destruct (decide (1 <= default 20%Z limit <= 100)%Z) as [Hlimit | Hlimit].
  - rewrite get_feed_eq by done. split; [done |].
    intros feed item [= <-] Hitem.
    apply list_elem_of_fmap in Hitem as [a [-> Ha]].
    apply slice_to_subseteq in Ha. rewrite ranked_perm in Ha.
    unfold find_articles in Ha.
    apply list_elem_of_In, filter_In in Ha as [Hin Hm].
    apply article_matches_spec in Hm. exists a.
    rewrite list_elem_of_In. tauto.
  - unfold get_feed.
    destruct (Z.leb_spec 1 (default 20%Z limit));
      destruct (Z.leb_spec (default 20%Z limit) 100); try lia;
      (split; [done | intros ?? [=]]).
Qed.

(** X6: the feed never shows anything but stored articles as they are
    stored: every item is a published article in the resolved language and
    region (where one is resolved), with its own title, content and
    language. Serving a feed writes nothing to the store. *)
Theorem get_feed_items_sound (db : Database.t) (clock : nat → datetime)
    (user_id : string) (language region : option string) (limit : option Z) :
  let pref := find_one_preference db user_id in
  let lang := py_or language (pref ≫= Preference.language) in
  let reg := py_or region (pref ≫= Preference.region) in
  (get_feed db clock user_id language region limit).2 = db
  ∧ ∀ feed item,
      (get_feed db clock user_id language region limit).1 = Return feed →
      item ∈ feed →
      ∃ a, a ∈ Database.article db
           ∧ item = feed_item a
           ∧ Article.is_published a = true
           ∧ (truthy lang → lang = Some (Article.language a))
           ∧ (truthy reg → reg = Article.region a).
Proof. exact (get_feed_items_sound_holds db clock user_id language region limit). Qed.

Lemma get_feed_complete_holds (db : Database.t) (clock : nat → datetime)
    (user_id : string) (language region : option string) (limit : option Z) :
  (1 <= default 20%Z limit <= 100)%Z →
  let pref := find_one_preference db user_id in
  let lang := py_or language (pref ≫= Preference.language) in
  let reg := py_or region (pref ≫= Preference.region) in
  let matching :=
    filter (λ a, Article.is_published a = true
                 ∧ (truthy lang → lang = Some (Article.language a))
                 ∧ (truthy reg → reg = Article.region a))
           (Database.article db) in
  (length matching ≤ Z.to_nat (default 20%Z limit))%nat →
  ∃ feed,
    (get_feed db clock user_id language region limit).1 = Return feed
    ∧ feed ≡ₚ feed_item <$> matching.
Proof.
  intros Hlimit pref lang reg matching Hfits.
  rewrite get_feed_eq by done. eexists. split; [done |].
  fold pref. fold lang. fold reg.
  unfold find_articles.
  rewrite (filter_bool_decide _ _ _ (article_matches_spec lang reg)).
  fold matching. unfold slice_to.
  destruct (Z.leb_spec 0 (default 20%Z limit)); [| lia].
  rewrite take_ge by (by rewrite sort_reverse_length, length_imap).
  by rewrite ranked_perm.
Qed.

(** X7: when the limit is at least the number of candidates nothing is
    left out: the feed is a rearrangement of all published articles in the
    resolved language and region, whatever their moderation status. *)
Theorem get_feed_complete (db : Database.t) (clock : nat → datetime)
    (user_id : string) (language region : option string) (limit : option Z) :
  (1 <= default 20%Z limit <= 100)%Z →
  let pref := find_one_preference db user_id in
  let lang := py_or language (pref ≫= Preference.language) in
  let reg := py_or region (pref ≫= Preference.region) in
  let matching :=
    filter (λ a, Article.is_published a = true
                 ∧ (truthy lang → lang = Some (Article.language a))
                 ∧ (truthy reg → reg = Article.region a))
           (Database.article db) in
  (length matching ≤ Z.to_nat (default 20%Z limit))%nat →
  ∃ feed,
    (get_feed db clock user_id language region limit).1 = Return feed
    ∧ feed ≡ₚ feed_item <$> matching.
Proof. exact (get_feed_complete_holds db clock user_id language region limit). Qed.

Lemma get_feed_complete_witness :
  ((1 <= default 20%Z (Some 5%Z) <= 100)%Z
   ∧ (length (filter (λ a, Article.is_published a = true
                           ∧ (truthy (Some "en") → Some "en" = Some (Article.language a))
                           ∧ (truthy None → None = Article.region a))
                (Database.article Sample.db)) ≤ Z.to_nat (default 20%Z (Some 5%Z)))%nat)
  ∧ ∃ feed,
      (get_feed Sample.db Sample.clock "u1" None None (Some 5%Z)).1 = Return feed
      ∧ feed ≡ₚ feed_item <$>
                 filter (λ a, Article.is_published a = true
                              ∧ (truthy (Some "en") → Some "en" = Some (Article.language a))
                              ∧ (truthy None → None = Article.region a))
                        (Database.article Sample.db).
Proof.
  split; [split; [by vm_compute | vm_compute; lia] |].
  apply (get_feed_complete Sample.db Sample.clock "u1" None None (Some 5%Z)).
  - by vm_compute.
  - vm_compute. lia.
Defined.

(** X8: with the clock standing at one instant while the candidates are
    scored, the feed lists them by descending score: no item is preceded
    by one with a lower score. *)
Theorem get_feed_ranked (db : Database.t) (now : datetime) (user_id : string)
    (language region : option string) (limit : option Z) :
  (1 <= default 20%Z limit <= 100)%Z →
  let pref := find_one_preference db user_id in
  let cats := from_option Preference.categories [] pref in
  let liked := liked_ids (find_interactions db user_id) in
  ∃ ranked,
    (get_feed db (λ _, now) user_id language region limit).1
      = Return (feed_item <$> ranked)
    ∧ StronglySorted (λ a b, score cats liked now b <= score cats liked now a) ranked.
Proof.
  intros Hlimit pref cats liked.
  rewrite get_feed_eq by done. eexists. split; [done |].
  fold pref. fold cats. fold liked. unfold slice_to.
  destruct (Z.leb_spec 0 (default 20%Z limit)); [| lia].
  eapply StronglySorted_app_1_l. rewrite take_drop.
  apply (ranked_sorted (score cats liked now)).
Qed.

Lemma get_feed_ranked_witness :
  (1 <= default 20%Z None <= 100)%Z
  ∧ ∃ ranked,
      (get_feed Sample.db (λ _, 7200000000%Z) "u1" None None None).1
        = Return (feed_item <$> ranked)
      ∧ StronglySorted
          (λ a b, score ["tech"] (liked_ids [Sample.like_hello]) 7200000000%Z b
                  <= score ["tech"] (liked_ids [Sample.like_hello]) 7200000000%Z a)
          ranked.
Proof.
  split; [by vm_compute |].
  apply (get_feed_ranked Sample.db 7200000000%Z "u1" None None None).
  by vm_compute.
Defined.


End FeedOrder.

(** ** Scorer: bounds, monotonicity and what counts as overlap *)

Section ScorerOrder.

Local Open Scope Q_scope.

Lemma length_remove_dups (l : list string) : (length (remove_dups l) ≤ length l)%nat.
Proof.
  induction l as [|x l IH]; simpl; [done |].
  destruct (decide_rel elem_of x l); simpl; lia.
Qed.

(** The overlap is the number of distinct tags of the article that are
    among the user's categories. *)
Lemma category_overlap_distinct (article : Article.t) (cats : list string) :
  category_overlap article cats
  = length (filter (λ c, c ∈ cats) (remove_dups (Article.categories article))).
Proof.
  unfold category_overlap.
  rewrite <- (size_list_to_set (C:=gset string))
    by (apply NoDup_filter, NoDup_remove_dups).
  f_equal. apply leibniz_equiv. intros c.
  rewrite elem_of_intersection, !elem_of_list_to_set, list_elem_of_filter,
    elem_of_remove_dups. tauto.
Qed.

Lemma category_term_nonneg (cats : list string) (article : Article.t) :
  0 <= category_term cats article.
Proof.
  unfold category_term. destruct cats; [apply Qle_refl |].
  apply Qmult_le_0_compat; [| lra].
  change 0 with (inject_Z 0). rewrite <- Zle_Qle. lia.
Qed.

Lemma category_term_le (cats : list string) (article : Article.t) :
  category_term cats article
  <= 2 * inject_Z (Z.of_nat (length (Article.categories article))).
Proof.
  unfold category_term. destruct cats as [|c cats].
  - apply Qmult_le_0_compat; [lra |].
    change 0 with (inject_Z 0). rewrite <- Zle_Qle. lia.
  - rewrite category_overlap_distinct.
    assert (inject_Z (Z.of_nat (length
              (filter (λ c0, c0 ∈ c :: cats) (remove_dups (Article.categories article)))))
            <= inject_Z (Z.of_nat (length (Article.categories article)))) as Hle.
    { rewrite <- Zle_Qle. apply inj_le.
      etrans; [apply length_filter | apply length_remove_dups]. }
    lra.
Qed.

(** X11: a score is never negative and never above 18 plus two points per
    tag of the article. For a user without interest categories and
    without a like on the article it is the moderation bonus plus the
    recency term, at most 15. *)
Theorem score_bounds (cats : list string) (liked : gset doc_id) (now : datetime)
    (article : Article.t) :
  0 <= score cats liked now article
  ∧ score cats liked now article
    <= 18 + 2 * inject_Z (Z.of_nat (length (Article.categories article)))
  ∧ (cats = [] → Article._id article ∉ liked →
       score cats liked now article == moderation_bonus article + recency_term now article
       ∧ score cats liked now article <= 15).
Proof.
  rewrite score_sum.
  pose proof (category_term_nonneg cats article) as Hc0.
  pose proof (category_term_le cats article) as Hc1.
  assert (0 <= moderation_bonus article <= 5) as Hm.
  { unfold moderation_bonus. case_bool_decide; lra. }
  assert (0 <= recency_term now article <= 10) as Hr.
  { unfold recency_term. destruct (Article.created_at article) as [created|]; [| lra].
    split; [apply Qlt_le_weak, recency_pos | apply recency_le_10]. }
  assert (0 <= like_bonus liked article <= 3) as Hl.
  { unfold like_bonus. case_bool_decide; lra. }
  split; [lra |]. split; [lra |].
  intros -> Hout. unfold like_bonus. rewrite bool_decide_eq_false_2 by done.
  unfold category_term. split; lra.
Qed.



Lemma recency_antitone (age age' : Q) :
  age' <= age → 10 / Qmax 1 age <= 10 / Qmax 1 age'.
Proof.
  intros Hage.
  assert (1 <= Qmax 1 age') as Hm' by apply Q.le_max_l.
  assert (Qmax 1 age' <= Qmax 1 age) as Hm by (by apply Q.max_le_compat_l).
  pose proof (recency_pos age') as Hx.
  assert (10 == Qmax 1 age' * (10 / Qmax 1 age')) as H10 by (field; lra).
  apply Qle_shift_div_r; [lra |].
  rewrite H10 at 1. rewrite (Qmult_comm (10 / Qmax 1 age')).
  apply Qmult_le_compat_r; [done | lra].
Qed.

(** X13: recency never favours the older article: of two articles with the
    same status, tags and id, the one created later scores at least as
    much as the one created earlier. *)
Theorem score_newer_not_lower (cats : list string) (liked : gset doc_id)
    (now created created' : datetime) (a b : Article.t) :
  Article.moderation_status a = Article.moderation_status b →
  Article.categories a = Article.categories b →
  Article._id a = Article._id b →
  Article.created_at a = Some created →
  Article.created_at b = Some created' →
  (created <= created')%Z →
  score cats liked now a <= score cats liked now b.
Proof.
  intros Hstatus Hcats Hid Ha Hb Hle. rewrite !score_sum.
  unfold moderation_bonus, category_term, category_overlap, recency_term, like_bonus.
  rewrite Hstatus, Hcats, Hid, Ha, Hb.
  assert (10 / Qmax 1 (total_seconds (now - created) / 3600)
          <= 10 / Qmax 1 (total_seconds (now - created') / 3600)) as Hrec.
  { apply recency_antitone.
    assert (total_seconds (now - created') <= total_seconds (now - created)) as Hsec.
    { unfold total_seconds, Qle. simpl. lia. }
    unfold Qdiv. apply Qmult_le_compat_r; [done | by vm_compute]. }
  revert Hrec.
  generalize (10 / Qmax 1 (total_seconds (now - created) / 3600)).
  generalize (10 / Qmax 1 (total_seconds (now - created') / 3600)).
  intros r' r Hrec.
  destruct (bool_decide (Article.moderation_status b = "approved")),
    cats, (bool_decide (Article._id b ∈ liked)); lra.
Qed.

Lemma score_newer_not_lower_witness :
  let later :=
    Article.mk (Article._id Sample.hello) "Hello" "World" "u2" "en" None ["tech"; "ai"]
      None [] true "approved" None ∅ (Some 3600000000%Z) (Some 0%Z) in
  score ["tech"] ∅ 7200000000%Z Sample.hello <= score ["tech"] ∅ 7200000000%Z later.
Proof.
  intros later.
  apply (score_newer_not_lower ["tech"] ∅ 7200000000%Z 0%Z 3600000000%Z
           Sample.hello later); (reflexivity || lia).
Defined.

(** X14: the category term counts shared tags once each: it is two points
    per distinct tag of the article that is among the user's categories,
    so a tag repeated on the article or in the preferences adds nothing;
    and a user with more categories never gets a lower term. *)
Theorem category_term_distinct_monotone (cats cats' : list string) (article : Article.t) :
  (cats ≠ [] →
     category_term cats article
     == 2 * inject_Z (Z.of_nat (length
            (filter (λ c, c ∈ cats) (remove_dups (Article.categories article))))))
  ∧ ((∀ c, c ∈ cats → c ∈ cats') →
       category_term cats article <= category_term cats' article).
Proof.
  split.
  - intros Hne. unfold category_term. destruct cats as [|c cats]; [done |].
    rewrite category_overlap_distinct. ring.
  - intros Hsub. unfold category_term.
    destruct cats as [|c cats].
    + apply (category_term_nonneg cats' article).
    + destruct cats' as [|c' cats'].
      { specialize (Hsub c (list_elem_of_here _ _)). by apply not_elem_of_nil in Hsub. }
      assert (inject_Z (Z.of_nat (category_overlap article (c :: cats)))
              <= inject_Z (Z.of_nat (category_overlap article (c' :: cats')))) as Hle.
      { rewrite <- Zle_Qle. apply inj_le. unfold category_overlap.
        apply subseteq_size. intros x.
        rewrite !elem_of_intersection, !elem_of_list_to_set.
        intros [Hx Hc]. split; [done | by apply Hsub]. }
      lra.
Qed.

End ScorerOrder.

(** ** Preferences *)

Section Preferences.

Lemma upsert_first_find {A} (p : A → bool) (f : A → A) (new : A) (l : list A) :
  (∀ y, p y = true → p (f y) = true) →
  p new = true →
  List.find p (upsert_first p f new l)
  = Some (from_option f new (List.find p l)).
Proof.
  intros Hf Hnew. induction l as [|y l IH]; simpl.
  - by rewrite Hnew.
  - destruct (p y) eqn:Hy; simpl.
    + by rewrite (Hf y Hy).
    + by rewrite Hy.
Qed.

Lemma upsert_first_find_other {A} (p q : A → bool) (f : A → A) (new : A) (l : list A) :
  (∀ y, q y = true → p y = false ∧ p (f y) = false) →
  p new = false →
  List.find p (upsert_first q f new l) = List.find p l.
Proof.
  intros Hq Hnew. induction l as [|y l IH]; simpl.
  - by rewrite Hnew.
  - destruct (q y) eqn:Hy; simpl.
    + by destruct (Hq y Hy) as [-> ->].
    + by rewrite IH.
Qed.

Lemma update_first_find_same {A} (p : A → bool) (f : A → A) (l : list A) :
  (∀ y, p y = true → p (f y) = true) →
  List.find p (update_first p f l) = f <$> List.find p l.
Proof.
  intros Hf. induction l as [|y l IH]; simpl; [done |].
  destruct (p y) eqn:Hy; simpl.
  - by rewrite (Hf y Hy).
  - by rewrite Hy.
Qed.

Lemma set_get_preferences_holds (db : Database.t) (user_id : string)
    (payload : PreferenceRequest.t) :
  (set_preferences db user_id payload).1 = "ok"
  ∧ get_preferences (set_preferences db user_id payload).2 user_id = payload.
Proof.
  split; [done |].
  unfold get_preferences, find_one_preference, set_preferences. simpl.
  rewrite upsert_first_find.
  - destruct payload. by destruct (List.find _ _).
  - by intros y Hy.
  - simpl. by apply bool_decide_eq_true.
Qed.

(** X15: what is saved is what is read back: after [set_preferences] for
    a user, [get_preferences] for that user returns the very payload,
    whether or not a record existed before. *)
Theorem set_get_preferences (db : Database.t) (user_id : string)
    (payload : PreferenceRequest.t) :
  (set_preferences db user_id payload).1 = "ok"
  ∧ get_preferences (set_preferences db user_id payload).2 user_id = payload.
Proof. exact (set_get_preferences_holds db user_id payload). Qed.

(** X16: saving one user's preferences leaves every other user's
    preferences, and all articles and interactions, as they were. *)
Theorem set_preferences_other_user (db : Database.t) (user_id other : string)
    (payload : PreferenceRequest.t) :
  other ≠ user_id →
  get_preferences (set_preferences db user_id payload).2 other = get_preferences db other
  ∧ Database.article (set_preferences db user_id payload).2 = Database.article db
  ∧ Database.interaction (set_preferences db user_id payload).2 = Database.interaction db.
Proof.
  intros Hne. split; [| done].
  unfold get_preferences, find_one_preference, set_preferences. simpl.
  rewrite upsert_first_find_other; [done | |].
  - intros y Hy. apply bool_decide_eq_true in Hy. simpl.
    split; apply bool_decide_eq_false; congruence.
  - simpl. by apply bool_decide_eq_false.
Qed.

Lemma set_preferences_other_user_witness :
  "u2" ≠ "u1"
  ∧ get_preferences
      (set_preferences Sample.db "u1" (PreferenceRequest.mk (Some "es") None [])).2 "u2"
    = get_preferences Sample.db "u2"
  ∧ Database.article
      (set_preferences Sample.db "u1" (PreferenceRequest.mk (Some "es") None [])).2
    = Database.article Sample.db
  ∧ Database.interaction
      (set_preferences Sample.db "u1" (PreferenceRequest.mk (Some "es") None [])).2
    = Database.interaction Sample.db.
Proof.
  split; [done |].
  by apply (set_preferences_other_user Sample.db "u1" "u2"
              (PreferenceRequest.mk (Some "es") None [])).
Defined.

(** X17: [set_preferences] mirrors the three fields on the profile of the
    user it is called for when that profile exists, and does nothing else
    to the user collection: it creates no user and changes nobody's
    verification. *)
Theorem set_preferences_users (db : Database.t) (user_id other : string)
    (payload : PreferenceRequest.t) :
  find_one_user (set_preferences db user_id payload).2 other
  = (if decide (other = user_id) then set_user_fields payload else id)
      <$> find_one_user db other
  ∧ User.is_verified <$> find_one_user (set_preferences db user_id payload).2 other
    = User.is_verified <$> find_one_user db other
  ∧ length (Database.user (set_preferences db user_id payload).2)
    = length (Database.user db).
Proof.
  assert (find_one_user (set_preferences db user_id payload).2 other
          = (if decide (other = user_id) then set_user_fields payload else id)
              <$> find_one_user db other) as Hfind.
  { unfold find_one_user, set_preferences. simpl.
    destruct (decide (other = user_id)) as [-> | Hne].
    - by rewrite update_first_find_same by (by intros y Hy).
    - rewrite update_first_find_other; [by rewrite option_fmap_id |].
      intros y Hy. apply bool_decide_eq_true in Hy. simpl.
      split; apply bool_decide_eq_false; congruence. }
  split; [exact Hfind |]. split.
  - rewrite Hfind. destruct (find_one_user db other) as [u|]; [| done].
    simpl. by destruct (decide (other = user_id)).
  - unfold set_preferences. simpl.
    induction (Database.user db) as [|u l IH]; simpl; [done |].
    destruct (bool_decide (User._id u = user_id)); simpl; by rewrite ?IH.
Qed.

(** X18: a saved language preference decides the feed when the request
    names no language: every item served to that user is in the saved
    language. *)
Theorem set_preferences_then_feed (db : Database.t) (clock : nat → datetime)
    (user_id l : string) (payload : PreferenceRequest.t) (limit : option Z)
    (feed : list FeedItem.t) (item : FeedItem.t) :
  PreferenceRequest.language payload = Some l →
  Str.nonempty l = true →
  (get_feed (set_preferences db user_id payload).2 clock user_id None None limit).1
    = Return feed →
  item ∈ feed →
  FeedItem.language item = l.
Proof.
  intros Hlang Hl Hfeed Hitem.
  destruct (get_feed_items_sound_holds (set_preferences db user_id payload).2 clock user_id
              None None limit) as [_ Hsound].
  destruct (Hsound feed item Hfeed Hitem) as (a & _ & -> & _ & Hmatch & _).
  pose proof (set_get_preferences_holds db user_id payload) as [_ Hget].
  unfold get_preferences in Hget.
  destruct (find_one_preference (set_preferences db user_id payload).2 user_id)
    as [pref|] eqn:Hpref.
  - simpl in Hmatch. rewrite <- Hget in Hlang. simpl in Hlang.
    rewrite Hlang in Hmatch. unfold py_or in Hmatch. simpl in Hmatch.
    rewrite Hl in Hmatch. specialize (Hmatch I). by injection Hmatch.
  - rewrite <- Hget in Hlang. discriminate Hlang.
Qed.

Lemma set_preferences_then_feed_witness :
  (get_feed (set_preferences Sample.db "u1" (PreferenceRequest.mk (Some "es") None [])).2
     Sample.clock "u1" None None None).1 = Return [feed_item Sample.hola]
  ∧ FeedItem.language (feed_item Sample.hola) = "es".
Proof.
  split; [by vm_compute |].
  apply (set_preferences_then_feed Sample.db Sample.clock "u1" "es"
           (PreferenceRequest.mk (Some "es") None []) None
           [feed_item Sample.hola] (feed_item Sample.hola)).
  - reflexivity.
  - reflexivity.
  - by vm_compute.
  - apply list_elem_of_here.
Defined.

End Preferences.

(** ** Interactions and the liked set *)

Section Interactions.

Lemma find_interactions_app (db : Database.t) (extra : Interaction.t) (user_id : string) :
  List.filter (λ it, bool_decide (Interaction.user_id it = user_id))
    (Database.interaction db ++ [extra])
  = find_interactions db user_id
    ++ (if bool_decide (Interaction.user_id extra = user_id) then [extra] else []).
Proof. unfold find_interactions. by rewrite List.filter_app. Qed.

Lemma liked_ids_app (l1 l2 : list Interaction.t) :
  liked_ids (l1 ++ l2) = liked_ids l1 ∪ liked_ids l2.
Proof.
  unfold liked_ids. rewrite List.filter_app, List.map_app.
  apply list_to_set_app_L.
Qed.

Lemma create_interaction_liked_holds (db : Database.t) (clock : nat → datetime)
    (user_id other : string) (payload : InteractionCreateRequest.t) :
  let db' := (create_interaction db clock user_id payload).2 in
  length (Database.interaction db') = S (length (Database.interaction db))
  ∧ Database.user db' = Database.user db
  ∧ Database.article db' = Database.article db
  ∧ Database.preference db' = Database.preference db
  ∧ liked_ids (find_interactions db' other)
    = if decide (other = user_id ∧ InteractionCreateRequest.action payload = "like")
      then liked_ids (find_interactions db other)
           ∪ {[ StrId (InteractionCreateRequest.article_id payload) ]}
      else liked_ids (find_interactions db other).
Proof.
  intros db'. unfold db', create_interaction. simpl.
  split; [rewrite length_app; simpl; lia |].
  repeat split.
  unfold find_interactions at 1. simpl.
  rewrite find_interactions_app, liked_ids_app. simpl.
  destruct (decide (other = user_id ∧ _)) as [[-> Hlike] | Hno].
  - rewrite bool_decide_eq_true_2 by done.
    unfold liked_ids at 2. simpl. rewrite bool_decide_eq_true_2 by done.
    simpl. by rewrite union_empty_r_L.
  - case_bool_decide as Huser.
    + unfold liked_ids at 2. simpl.
      rewrite bool_decide_eq_false_2 by (intros Hlike; by apply Hno).
      simpl. by rewrite union_empty_r_L.
    + unfold liked_ids at 2. simpl. by rewrite union_empty_r_L.
Qed.

(** X19: recording an interaction appends one entry to the log and touches
    nothing else. Only a "like" changes a liked set, and only that of the
    user who sent it: it gains the liked article id as the string that
    was sent. *)
Theorem create_interaction_liked (db : Database.t) (clock : nat → datetime)
    (user_id other : string) (payload : InteractionCreateRequest.t) :
  let db' := (create_interaction db clock user_id payload).2 in
  length (Database.interaction db') = S (length (Database.interaction db))
  ∧ Database.user db' = Database.user db
  ∧ Database.article db' = Database.article db
  ∧ Database.preference db' = Database.preference db
  ∧ liked_ids (find_interactions db' other)
    = if decide (other = user_id ∧ InteractionCreateRequest.action payload = "like")
      then liked_ids (find_interactions db other)
           ∪ {[ StrId (InteractionCreateRequest.article_id payload) ]}
      else liked_ids (find_interactions db other).
Proof. exact (create_interaction_liked_holds db clock user_id other payload). Qed.

(** X20: the like bonus never reaches an article that came in through
    [create_article]. The article is stored under the driver's id object
    while a like stores the id as a string, so even right after a reader
    likes the new article under the id that the submission returned, the
    liked set holds that string, the article's id is not in it, and the
    article scores as if it had not been liked. *)
Theorem like_on_submitted_article (db : Database.t) (clock clock' : nat → datetime)
    (inserted_id author reader : string) (payload : ArticleCreateRequest.t)
    (user : User.t) :
  find_one_user db author = Some user →
  let submitted := create_article db clock inserted_id author payload in
  let db' :=
    (create_interaction submitted.2 clock' reader
       (InteractionCreateRequest.mk inserted_id "like" None 0)).2 in
  let liked := liked_ids (find_interactions db' reader) in
  ∃ doc notes,
    submitted.1 = Return (CreateResponse.mk inserted_id (Article.moderation_status doc) notes)
    ∧ last (Database.article db') = Some doc
    ∧ StrId inserted_id ∈ liked
    ∧ (Article._id doc ∉ liked)
    ∧ ∀ cats now, score cats liked now doc = score cats ∅ now doc.
Proof.
  intros Huser submitted db' liked.
  pose proof (create_article_effect_holds db clock inserted_id author payload) as Heff.
  rewrite Huser in Heff.
  destruct Heff as (doc & db1 & Hcreate & _ & Harts & _ & _ & _ & Hid & _).
  pose proof (create_interaction_liked_holds db1 clock' reader reader
                (InteractionCreateRequest.mk inserted_id "like" None 0))
    as (_ & _ & Harts' & _ & Hliked).
  cbn [InteractionCreateRequest.action InteractionCreateRequest.article_id] in Hliked.
  rewrite decide_True in Hliked by done.
  subst submitted db' liked. rewrite Hcreate. cbn [fst snd].
  exists doc, (default "" (Article.moderation_notes doc)).
  rewrite Hid in *. cbn [id_str].
  split; [done |].
  split; [rewrite Harts', Harts; apply last_snoc |].
  split; [rewrite Hliked; apply elem_of_union_r; by apply elem_of_singleton |].
  assert (ObjectId inserted_id ∉
            liked_ids (find_interactions
              (create_interaction db1 clock' reader
                 (InteractionCreateRequest.mk inserted_id "like" None 0)).2 reader))
    as Hout by apply liked_ids_no_ObjectId.
  split; [done |].
  intros cats now. unfold score. rewrite Hid.
  rewrite (bool_decide_eq_false_2 _ Hout).
  by rewrite (bool_decide_eq_false_2 _ (not_elem_of_empty (C:=gset doc_id) (ObjectId inserted_id))).
Qed.

Lemma like_on_submitted_article_witness :
  find_one_user Sample.db "u2" = Some Sample.editor
  ∧ let submitted :=
      create_article Sample.db Sample.clock "0123456789abcdefabcdef04" "u2"
        Sample.flagged_payload in
    let db' :=
      (create_interaction submitted.2 Sample.clock "u1"
         (InteractionCreateRequest.mk "0123456789abcdefabcdef04" "like" None 0)).2 in
    let liked := liked_ids (find_interactions db' "u1") in
    ∃ doc notes,
      submitted.1
        = Return (CreateResponse.mk "0123456789abcdefabcdef04"
                    (Article.moderation_status doc) notes)
      ∧ last (Database.article db') = Some doc
      ∧ StrId "0123456789abcdefabcdef04" ∈ liked
      ∧ (Article._id doc ∉ liked)
      ∧ ∀ cats now, score cats liked now doc = score cats ∅ now doc.
Proof.
  split; [reflexivity |].
  by apply (like_on_submitted_article Sample.db Sample.clock Sample.clock
              "0123456789abcdefabcdef04" "u2" "u1" Sample.flagged_payload Sample.editor).
Defined.

End Interactions.

(** ** Verification by the admin *)

Section Verification.

Lemma verify_user_effect_holds (ADMIN_SECRET : option string) (db : Database.t)
    (user_id secret : string) :
  (secret ≠ default "secret" ADMIN_SECRET →
     verify_user ADMIN_SECRET db user_id secret = (HTTPException 401 "Unauthorized", db))
  ∧ (secret = default "secret" ADMIN_SECRET →
       ∃ db',
         verify_user ADMIN_SECRET db user_id secret = (Return ("ok", user_id), db')
         ∧ (∀ other,
              find_one_user db' other
              = (if decide (other = user_id) then set_verified else id)
                  <$> find_one_user db other)
         ∧ length (Database.user db') = length (Database.user db)
         ∧ Database.article db' = Database.article db
         ∧ Database.interaction db' = Database.interaction db
         ∧ Database.preference db' = Database.preference db).
Proof.
  unfold verify_user. split; intros Hsecret.
  - by rewrite bool_decide_eq_true_2.
  - rewrite bool_decide_eq_false_2 by (by intros Hne).
    eexists. split; [reflexivity |]. simpl.
    split; [| split; [| done]].
    + intros other. unfold find_one_user. simpl.
      destruct (decide (other = user_id)) as [-> | Hne].
      * by rewrite update_first_find_same by (by intros y Hy).
      * rewrite update_first_find_other; [by rewrite option_fmap_id |].
        intros y Hy. apply bool_decide_eq_true in Hy. simpl.
        split; apply bool_decide_eq_false; congruence.
    + induction (Database.user db) as [|u l IH]; simpl; [done |].
      destruct (bool_decide (User._id u = user_id)); simpl; by rewrite ?IH.
Qed.

(** X21: [verify_user] compares the given secret with the environment's
    [ADMIN_SECRET], or with the word "secret" when that variable is not
    set. A different secret is answered with 401 and changes nothing. The
    right one answers "ok" with the user id, marks that user verified when
    the user exists, and leaves every other user and every other
    collection alone; it creates no user. *)
Theorem verify_user_effect (ADMIN_SECRET : option string) (db : Database.t)
    (user_id secret : string) :
  (secret ≠ default "secret" ADMIN_SECRET →
     verify_user ADMIN_SECRET db user_id secret = (HTTPException 401 "Unauthorized", db))
  ∧ (secret = default "secret" ADMIN_SECRET →
       ∃ db',
         verify_user ADMIN_SECRET db user_id secret = (Return ("ok", user_id), db')
         ∧ (∀ other,
              find_one_user db' other
              = (if decide (other = user_id) then set_verified else id)
                  <$> find_one_user db other)
         ∧ length (Database.user db') = length (Database.user db)
         ∧ Database.article db' = Database.article db
         ∧ Database.interaction db' = Database.interaction db
         ∧ Database.preference db' = Database.preference db).
Proof. exact (verify_user_effect_holds ADMIN_SECRET db user_id secret). Qed.

(** X22: verification changes what happens to the user's next submission:
    once an existing user has been verified with the right secret, an
    article they submit is judged by the keyword scan, so it is stored as
    "approved" or "rejected" and no longer as "pending". *)
Theorem verify_then_create (ADMIN_SECRET : option string) (db : Database.t)
    (clock : nat → datetime) (inserted_id user_id secret : string)
    (payload : ArticleCreateRequest.t) (user : User.t) :
  find_one_user db user_id = Some user →
  secret = default "secret" ADMIN_SECRET →
  let verified := (verify_user ADMIN_SECRET db user_id secret).2 in
  ∃ status notes,
    (create_article verified clock inserted_id user_id payload).1
      = Return (CreateResponse.mk inserted_id status notes)
    ∧ (status = "approved" ∨ status = "rejected")
    ∧ status ≠ "pending".
Proof.
  intros Huser Hsecret verified.
  destruct (verify_user_effect_holds ADMIN_SECRET db user_id secret) as [_ Hok].
  destruct (Hok Hsecret) as (db' & Hverify & Husers & _).
  unfold verified. rewrite Hverify. simpl.
  specialize (Husers user_id). rewrite decide_True, Huser in Husers by done.
  destruct (create_article_verified_verdict_holds db' clock inserted_id user_id payload
              (set_verified user) Husers eq_refl)
    as (doc & _ & [notes Hresp] & Hcases & _).
  exists (Article.moderation_status doc), notes.
  split; [exact Hresp |].
  split; [tauto |].
  destruct Hcases as [-> | ->]; discriminate.
Qed.

Lemma verify_then_create_witness :
  (find_one_user Sample.db "u1" = Some Sample.reader
   ∧ "secret" = default "secret" None)
  ∧ User.is_verified Sample.reader = false
  ∧ ∃ status notes,
      (create_article (verify_user None Sample.db "u1" "secret").2 Sample.clock
         "0123456789abcdefabcdef04" "u1" Sample.flagged_payload).1
        = Return (CreateResponse.mk "0123456789abcdefabcdef04" status notes)
      ∧ (status = "approved" ∨ status = "rejected")
      ∧ status ≠ "pending".
Proof.
  split; [by split |]. split; [reflexivity |].
  apply (verify_then_create None Sample.db Sample.clock "0123456789abcdefabcdef04"
           "u1" "secret" Sample.flagged_payload Sample.reader); reflexivity.
Defined.

End Verification.

(** ** Compositions around the feed *)

Section FeedCompositions.

(** X23: the write-through cache is idempotent. When the loop has
    translated a stored article on a cache miss, going through the loop
    body again with the article as it is then stored serves the very same
    item from the cache and writes nothing. *)
Theorem feed_step_twice (l : string) (db : Database.t) (a : Article.t) :
  Str.nonempty l = true →
  Article.language a ≠ l →
  Article.translated a !! l = None →
  find_one_article db (Article._id a) = Some a →
  let first := feed_step (Some l) db a in
  ∃ stored,
    find_one_article first.1 (Article._id a) = Some stored
    ∧ Article.translated stored !! l
      = Some (Translation.mk (simple_translate (Article.title a) l)
                (simple_translate (Article.content a) l))
    ∧ feed_step (Some l) first.1 stored = (first.1, first.2).
Proof.
  intros Hl Hne Hmiss Hstored first.
  unfold first, feed_step. rewrite Hl, bool_decide_eq_true_2, Hmiss by done. simpl.
  eexists. split; [by apply update_translation_lookup |].
  split; [apply lookup_insert_eq |].
  simpl. rewrite bool_decide_eq_true_2 by done.
  by rewrite lookup_insert_eq.
Qed.

Lemma feed_step_twice_witness :
  (Str.nonempty "es" = true
   ∧ Article.language Sample.hello ≠ "es"
   ∧ Article.translated Sample.hello !! "es" = None
   ∧ find_one_article Sample.db (Article._id Sample.hello) = Some Sample.hello)
  ∧ ∃ stored,
      find_one_article (feed_step (Some "es") Sample.db Sample.hello).1
        (Article._id Sample.hello) = Some stored
      ∧ Article.translated stored !! "es"
        = Some (Translation.mk (simple_translate (Article.title Sample.hello) "es")
                  (simple_translate (Article.content Sample.hello) "es"))
      ∧ feed_step (Some "es") (feed_step (Some "es") Sample.db Sample.hello).1 stored
        = ((feed_step (Some "es") Sample.db Sample.hello).1,
           (feed_step (Some "es") Sample.db Sample.hello).2).
Proof.
  split; [by repeat split |].
  apply (feed_step_twice "es" Sample.db Sample.hello);
    [reflexivity | discriminate | reflexivity | reflexivity].
Defined.

(** X24: moderation does not keep an article out of the feed. A submission
    is stored as published whatever the verdict, so as soon as it is
    stored it is served by every feed whose resolved language and region
    it matches and whose limit does not cut the candidates, with the
    status the submission was answered with, "rejected" included. *)
Theorem create_article_then_feed (db : Database.t) (clock clock' : nat → datetime)
    (inserted_id author reader : string) (payload : ArticleCreateRequest.t)
    (user : User.t) (language region : option string) (limit : option Z) :
  find_one_user db author = Some user →
  1 ≤ default 20 limit ≤ 100 →
  let db' := (create_article db clock inserted_id author payload).2 in
  let pref := find_one_preference db' reader in
  let lang := py_or language (pref ≫= Preference.language) in
  let reg := py_or region (pref ≫= Preference.region) in
  let matching :=
    filter (λ a, Article.is_published a = true
                 ∧ (truthy lang → lang = Some (Article.language a))
                 ∧ (truthy reg → reg = Article.region a))
           (Database.article db') in
  (truthy lang → lang = Some (ArticleCreateRequest.language payload)) →
  (truthy reg → reg = ArticleCreateRequest.region payload) →
  (length matching ≤ Z.to_nat (default 20%Z limit))%nat →
  ∃ status notes feed item,
    (create_article db clock inserted_id author payload).1
      = Return (CreateResponse.mk inserted_id status notes)
    ∧ (get_feed db' clock' reader language region limit).1 = Return feed
    ∧ item ∈ feed
    ∧ FeedItem.id item = inserted_id
    ∧ FeedItem.title item = ArticleCreateRequest.title payload
    ∧ FeedItem.moderation_status item = status.
Proof.
  intros Huser Hlimit db' pref lang reg matching Hlang Hreg Hfits.
  pose proof (create_article_effect_holds db clock inserted_id author payload) as Heff.
  rewrite Huser in Heff.
  destruct Heff as (doc & db1 & Hcreate & _ & Harts & _ & _ & _ & Hid & _ & Htitle
                    & _ & Hdlang & Hdreg & _ & Hpub & _).
  assert (db' = db1) as Hdb by (unfold db'; by rewrite Hcreate).
  destruct (get_feed_complete_holds db' clock' reader language region limit Hlimit Hfits)
    as (feed & Hfeed & Hperm).
  exists (Article.moderation_status doc), (default "" (Article.moderation_notes doc)),
    feed, (feed_item doc).
  split; [by rewrite Hcreate, Hid |].
  split; [exact Hfeed |].
  split; [| simpl; by rewrite Hid, Htitle].
  rewrite Hperm. apply list_elem_of_fmap. exists doc. split; [done |].
  unfold matching. apply list_elem_of_filter. split.
  - rewrite Hdlang, Hdreg. by repeat split.
  - rewrite Hdb, Harts. apply elem_of_app. right. apply list_elem_of_here.
Qed.

Lemma create_article_then_feed_witness :
  (find_one_user Sample.db "u2" = Some Sample.editor ∧ 1 ≤ default 20 None ≤ 100)
  ∧ ∃ status notes feed item,
      (create_article Sample.db Sample.clock "0123456789abcdefabcdef04" "u2"
         Sample.flagged_payload).1
        = Return (CreateResponse.mk "0123456789abcdefabcdef04" status notes)
      ∧ (get_feed
           (create_article Sample.db Sample.clock "0123456789abcdefabcdef04" "u2"
              Sample.flagged_payload).2 Sample.clock "u1" None None None).1
        = Return feed
      ∧ item ∈ feed
      ∧ FeedItem.id item = "0123456789abcdefabcdef04"
      ∧ FeedItem.title item = "Fake news"
      ∧ FeedItem.moderation_status item = status.
Proof.
  split; [split; [reflexivity | by vm_compute] |].
  apply (create_article_then_feed Sample.db Sample.clock Sample.clock
           "0123456789abcdefabcdef04" "u2" "u1" Sample.flagged_payload Sample.editor
           None None None).
  - reflexivity.
  - by vm_compute.
  - by vm_compute.
  - by vm_compute.
  - vm_compute. lia.
Defined.

End FeedCompositions.
